(** * Scroll choreography of the 3D can showcase (js/scene.js)

    A shallow embedding of the progress-to-animation-state mapping of
    [js/scene.js]: the main pinned ScrollTrigger's [onUpdate], the logo
    colour trigger, the tooltip triggers, the model positioning
    ([setupModel], [applyEntranceAnimationState]) and the load and resize
    handlers.  The earlier revision of the handler that the repository
    also carries is embedded in [Module Legacy].

    Number model.  The handlers are embedded over exact rationals
    ([Q]): a decimal literal of the script stands for the decimal
    fraction it spells, and [Math.PI] for the binary64 value the
    language defines.  Equalities on numbers are [Qeq] ([==]).  This
    reading does not round intermediate results.  [Module B64] repeats
    the rules that write DOM properties over binary64 floats, as the
    script computes them; statements about a value a ramp takes are
    made there. *)

From Stdlib Require Import QArith Qminmax Qround Qabs Lqa ZArith Lia List Bool String.
From Stdlib Require Import Floats.PrimFloat Floats.SpecFloat Floats.FloatOps.
Import ListNotations.
Open Scope Q_scope.

(** ** The JavaScript primitives the script uses on numbers *)

Module JS.

Definition lt (x y : Q) : bool :=
  match x ?= y with Lt => true | _ => false end.
Definition gt (x y : Q) : bool := lt y x.
Definition le (x y : Q) : bool := negb (lt y x).
Definition ge (x y : Q) : bool := negb (lt x y).

Definition Math_max (x y : Q) : Q := Qmax x y.
Definition Math_min (x y : Q) : Q := Qmin x y.
Definition Math_abs (x : Q) : Q := Qabs x.

(** [Math.round]: the nearest integer, ties towards +infinity. *)
Definition Math_round (x : Q) : Z := Qfloor (x + 0.5).

(** [Math.PI] is the binary64 number 884279719003555 / 2^48. *)
Definition Math_PI : Q := 884279719003555 # 281474976710656.

End JS.

Declare Scope js_scope.
Delimit Scope js_scope with js.
Infix "<?" := JS.lt (at level 70, no associativity) : js_scope.
Infix ">?" := JS.gt (at level 70, no associativity) : js_scope.
Infix "<=?" := JS.le (at level 70, no associativity) : js_scope.
Infix ">=?" := JS.ge (at level 70, no associativity) : js_scope.
Open Scope js_scope.

(** ** Data *)

Record Vector3 : Type := mkVector3 { vx : Q; vy : Q; vz : Q }.

(** The loaded model (a THREE.Object3D): its position, the Euler angle
    [model.rotation.z] written by [setupModel], and the sum of the
    angles passed to [model.rotateOnAxis] about the fixed axis (0,1,0). *)
Record Object3D : Type := mkObject3D {
  position : Vector3;
  rotation_z : Q;
  turned : Q
}.

(** [modelConfig] *)
Module modelConfig.
Definition scaleFactor : Q := 4.
Definition cameraDistance_mobile : Q := 4.
Definition cameraDistance_desktop : Q := 3.
Definition horizontalOffset : Q := 0.4.
Definition verticalOffset : Q := -0.05.
Definition rotation_mobile : Q := 0.
Definition rotation_desktop : Q := -15.
End modelConfig.

(** The script's mutable globals.  [model] is [undefined] and
    [modelSize] is [0] (both falsy) until the asset has loaded. *)
Record Scene : Type := mkScene {
  model : option Object3D;
  currentRotation : Q;
  modelSize : option Vector3;
  finalModelPosition : Vector3;
  currentScrollProgress : Q;
  camera_z : Q
}.

Definition initialScene : Scene :=
  {| model := None; currentRotation := 0; modelSize := None;
     finalModelPosition := mkVector3 0 0 0;
     currentScrollProgress := 0; camera_z := 0 |}.

(** A CSS colour as the script writes it: an [rgb(r, g, b)] template
    string or a hexadecimal literal. *)
Inductive CssColor : Type :=
| rgb (r g b : Z)
| hex (s : string).

(** The values handed to [gsap.to] by one call of the main [onUpdate]. *)
Record Targets : Type := mkTargets {
  gradientOpacity : Q;
  model_position_y : option Q;
  container_scale : Q;
  container_sticky : bool;
  header1_xPercent : Q;
  mask_clipPath_radius : Q;
  header2_xPercent : Q;
  header2_zIndex : Z;
  header2_opacity : Q;
  header2_color : CssColor
}.

(** ** The main pinned ScrollTrigger: [onUpdate] *)

Definition entranceProgress (progress : Q) : Q :=
  JS.Math_max 0 (JS.Math_min 1 (progress / 0.05)).

Definition currentY (finalY sizeY entrance : Q) : Q :=
  finalY - (1 - entrance) * sizeY * 1.5.

Definition modelProgress (progress : Q) : Q :=
  JS.Math_max 0 (JS.Math_min 1 ((progress - 0.06) / 0.04)).

Definition modelScale (progress : Q) : Q :=
  if progress <? 0.15 then 0.8 else 0.8 + 0.2 * modelProgress progress.

Definition headerProgress (progress : Q) : Q :=
  JS.Math_max 0 (JS.Math_min 1 ((progress - 0.12) / 0.13)).

Definition header1XPercent (progress : Q) : Q :=
  if progress <? 0.08 then 0
  else if progress >? 0.3 then -100
  else -100 * headerProgress progress.

(** The mask rule in exact arithmetic; [B64.maskSize] is the rule as
    the script's binary64 arithmetic evaluates it. *)
Definition maskSize (progress : Q) : Q :=
  if progress <? 0.2 then 0
  else if progress >? 0.28 then 100
  else (100 * (progress - 0.2)) / 0.08.

Definition slideProgress (progress : Q) : Q := (progress - 0.18) / 0.17.

(** The header-2 slide in exact arithmetic; [B64.header2XPercent] is
    the rule as the script's binary64 arithmetic evaluates it. *)
Definition header2XPercent (progress : Q) : Q :=
  if progress <? 0.18 then 100
  else if progress >? 0.35 then -100
  else 100 - 200 * slideProgress progress.

Definition targetRotation (progress : Q) : Q := JS.Math_PI * 8 * progress.

Definition rotationDiff (progress current : Q) : Q :=
  targetRotation progress - current.

(** [model.rotateOnAxis(new THREE.Vector3(0, 1, 0), angle)] *)
Definition rotateOnAxis_Y (angle : Q) (m : Object3D) : Object3D :=
  {| position := position m; rotation_z := rotation_z m;
     turned := turned m + angle |}.

Definition colorProgress (progress : Q) : Q :=
  if progress <? 0.18 then 0
  else if progress >? 0.24 then 1
  else (progress - 0.18) / 0.06.

Definition colorValue (progress : Q) : Z :=
  JS.Math_round (255 * (1 - colorProgress progress)).

Definition onUpdate (progress : Q) (s : Scene) : Scene * Targets :=
  let gradient := if progress >=? 0.08 then 0 else 1 in
  let y :=
    match model s, modelSize s with
    | Some _, Some size =>
        Some (currentY (vy (finalModelPosition s)) (vy size)
                       (entranceProgress progress))
    | _, _ => None
    end in
  let rotated :=
    match model s with
    | Some m =>
        let diff := rotationDiff progress (currentRotation s) in
        if JS.Math_abs diff >? 0.001
        then (Some (rotateOnAxis_Y diff m), targetRotation progress)
        else (Some m, currentRotation s)
    | None => (None, currentRotation s)
    end in
  let v := colorValue progress in
  ({| model := fst rotated;
      currentRotation := snd rotated;
      modelSize := modelSize s;
      finalModelPosition := finalModelPosition s;
      currentScrollProgress := progress;
      camera_z := camera_z s |},
   {| gradientOpacity := gradient;
      model_position_y := y;
      container_scale := modelScale progress;
      container_sticky := progress >=? 0.9;
      header1_xPercent := header1XPercent progress;
      mask_clipPath_radius := maskSize progress;
      header2_xPercent := header2XPercent progress;
      header2_zIndex := if progress >=? 0.18 then 10%Z else 1%Z;
      header2_opacity := if progress >=? 0.18 then 1 else 0;
      header2_color := rgb v v v |}).

(** Delivering a sequence of progress updates to the main trigger; the
    result is the final globals and the targets of the last call. *)
Fixpoint deliver (ps : list Q) (s : Scene) (last : option Targets)
  : Scene * option Targets :=
  match ps with
  | [] => (s, last)
  | p :: ps' => let r := onUpdate p s in deliver ps' (fst r) (Some (snd r))
  end.

(** ** The logo colour trigger: [onUpdate] *)

Definition transitionProgress (progress : Q) : Q := (progress - 0.2) / 0.01.

Definition logo_colorValue (progress : Q) : Z :=
  JS.Math_round (255 * (1 - transitionProgress progress)).

Definition logo_onUpdate (progress : Q) : CssColor :=
  if (progress >=? 0.2) && (progress <=? 0.28) then
    let v := logo_colorValue progress in rgb v v v
  else if progress >? 0.28 then hex "#000000"
  else hex "#ffffff".

(** The red, green and blue channels a colour written by the script
    denotes. *)
Definition channels (c : CssColor) : Z * Z * Z :=
  match c with
  | rgb r g b => (r, g, b)
  | hex s => if String.eqb s "#000000" then (0, 0, 0)%Z else (255, 255, 255)%Z
  end.

(** ** Model positioning *)

Definition degToRad (degrees : Q) : Q := degrees * (JS.Math_PI / 180).

(** [setupModel].  [isMobile] is [window.innerWidth < 768].  [center]
    stands for [box.getCenter(...)]: the renderer measures the bounding
    box in world space from the model where it stands at the time of
    the call, so the centre of a later call is not the centre of the
    load; statements about a resize range over every centre. *)
Definition setupModel (isMobile : bool) (center : Vector3) (s : Scene) : Scene :=
  match model s, modelSize s with
  | Some m, Some size =>
      let newPositionX :=
        if isMobile then vx center * 1
        else - vx center - vx size * modelConfig.horizontalOffset in
      let newPositionY := - vy center + vy size * modelConfig.verticalOffset in
      let newPositionZ := - vz center in
      let startPositionY := newPositionY - vy size * 1.5 in
      let rotationDegrees :=
        if isMobile then modelConfig.rotation_mobile
        else modelConfig.rotation_desktop in
      let cameraDistance :=
        if isMobile then modelConfig.cameraDistance_mobile
        else modelConfig.cameraDistance_desktop in
      let maxDimension :=
        JS.Math_max (JS.Math_max (vx size) (vy size)) (vz size) in
      {| model := Some {| position :=
                            mkVector3 newPositionX startPositionY newPositionZ;
                          rotation_z := degToRad rotationDegrees;
                          turned := turned m |};
         currentRotation := currentRotation s;
         modelSize := modelSize s;
         finalModelPosition := mkVector3 newPositionX newPositionY newPositionZ;
         currentScrollProgress := currentScrollProgress s;
         camera_z := maxDimension * cameraDistance |}
  | _, _ => s
  end.

Definition resize_entranceProgress (progress : Q) : Q :=
  JS.Math_max 0 (JS.Math_min 1 (progress / 0.12)).

(** [applyEntranceAnimationState] *)
Definition applyEntranceAnimationState (s : Scene) : Scene :=
  match model s, modelSize s with
  | Some m, Some size =>
      let y := currentY (vy (finalModelPosition s)) (vy size)
                        (resize_entranceProgress (currentScrollProgress s)) in
      {| model := Some {| position := mkVector3 (vx (position m)) y
                                                (vz (position m));
                          rotation_z := rotation_z m;
                          turned := turned m |};
         currentRotation := currentRotation s;
         modelSize := modelSize s;
         finalModelPosition := finalModelPosition s;
         currentScrollProgress := currentScrollProgress s;
         camera_z := camera_z s |}
  | _, _ => s
  end.

(** The success callback of [GLTFLoader.load]: [size] and [center] are
    the bounding box the renderer measures on the scaled model. *)
Definition onModelLoaded (isMobile : bool) (size center : Vector3) (s : Scene)
  : Scene :=
  setupModel isMobile center
    {| model := Some {| position := mkVector3 0 0 0; rotation_z := 0;
                        turned := 0 |};
       currentRotation := currentRotation s;
       modelSize := Some size;
       finalModelPosition := finalModelPosition s;
       currentScrollProgress := currentScrollProgress s;
       camera_z := camera_z s |}.

(** The [resize] listener of the 3D scene. *)
Definition onResize (isMobile : bool) (center : Vector3) (s : Scene) : Scene :=
  applyEntranceAnimationState (setupModel isMobile center s).

(** The y coordinate of the model, when there is one. *)
Definition model_y (s : Scene) : option Q :=
  match model s with
  | Some m => Some (vy (position m))
  | None => None
  end.

(** ** Tooltip timelines *)

(** The part of a GSAP timeline the script drives: the play head as a
    fraction of the timeline, and the paused and reversed flags.
    [play] and [reverse] only choose a direction, the head then moves
    with the ticker ([tick], in seconds); [progress] sets the head. *)
Record Timeline : Type := mkTimeline {
  head : Q;
  paused : bool;
  reversed : bool
}.

Module timeline.

(** The tweens of [createTooltipTimelines] end at 1.5 seconds. *)
Definition duration : Q := 1.5.

(** [gsap.timeline({ paused: true })] *)
Definition create : Timeline :=
  {| head := 0; paused := true; reversed := false |}.

Definition play (t : Timeline) : Timeline :=
  {| head := head t; paused := false; reversed := false |}.

Definition reverse (t : Timeline) : Timeline :=
  {| head := head t; paused := false; reversed := true |}.

Definition progress (value : Q) (t : Timeline) : Timeline :=
  {| head := JS.Math_max 0 (JS.Math_min 1 value);
     paused := paused t; reversed := reversed t |}.

Definition tick (seconds : Q) (t : Timeline) : Timeline :=
  if paused t then t
  else if reversed t then
    {| head := JS.Math_max 0 (head t - seconds / duration);
       paused := false; reversed := true |}
  else
    {| head := JS.Math_min 1 (head t + seconds / duration);
       paused := false; reversed := false |}.

End timeline.

(** [createTooltipScrollTriggers]: the callbacks of one tooltip trigger. *)
Definition isInTooltipRange (progress : Q) : bool :=
  (progress >=? 0.45) && (progress <=? 0.85).

Definition tooltip_onUpdate (progress : Q) (t : Timeline) : Timeline :=
  if isInTooltipRange progress then timeline.play t else timeline.reverse t.

Definition tooltip_onRefresh (progress : Q) (t : Timeline) : Timeline :=
  if (progress >=? 0.35) && (progress <=? 0.45)
  then timeline.progress 1 t
  else timeline.progress 0 t.

(** ** The earlier revision of the main handler *)

Module Legacy.

Definition entranceProgress (progress : Q) : Q :=
  JS.Math_max 0 (JS.Math_min 1 (progress / 0.12)).

(** [tooltipSelectors]: the trigger points of the two tooltips. *)
Definition tooltipSelectors : list Q := [0.45; 0.47].

Definition tooltipProgress (progress trigger : Q) : Q :=
  JS.Math_min 1 ((progress - trigger) / 0.1).

(** The body of [tooltipSelectors.forEach] in [onUpdate], for a
    timeline that exists. *)
Definition tooltip_update (progress trigger : Q) (t : Timeline) : Timeline :=
  if progress >=? trigger
  then timeline.progress (tooltipProgress progress trigger) t
  else timeline.progress 0 t.

End Legacy.

(** ** The specification's window evaluation *)

Record AnimationWindow : Type := mkWindow { w_start : Q; w_end : Q }.

Definition clamp (x lo hi : Q) : Q := Qmax lo (Qmin hi x).

(** [clamp((progress - window.start) / (window.end - window.start), 0, 1)] *)
Definition windowProgress (progress : Q) (w : AnimationWindow) : Q :=
  clamp ((progress - w_start w) / (w_end w - w_start w)) 0 1.

(** The sub-progress computations of the main handler, the ones
    written with [Math.max] and [Math.min], each with the window its
    constants spell. *)
Definition configuredRules : list (AnimationWindow * (Q -> Q)) :=
  [ (mkWindow 0 0.05, entranceProgress);
    (mkWindow 0.06 0.1, modelProgress);
    (mkWindow 0.12 0.25, headerProgress) ].

(** ** The DOM rules of the main handler over binary64 *)

Set Warnings "-inexact-float".

(** JavaScript numbers are binary64 floats.  [B64] repeats the rules of
    the main [onUpdate] that write DOM properties over Rocq's primitive
    floats, which are binary64 with round-to-nearest-even; a decimal
    literal is the nearest binary64 number, as in the script. *)
Module B64.

(** [Math.max] and [Math.min] on two numbers (signed zeros are not told
    apart). *)
Definition Math_max (x y : float) : float :=
  if is_nan x || is_nan y then nan else if ltb x y then y else x.

Definition Math_min (x y : float) : float :=
  if is_nan x || is_nan y then nan else if ltb y x then y else x.

(** The rational a finite binary64 number is; [0] for the others. *)
Definition value (x : float) : Q :=
  match Prim2SF x with
  | S754_finite s m e =>
      let q := inject_Z (Z.pos m) * 2 ^ e in if s then - q else q
  | _ => 0
  end.

(** [Math.round] of a finite number: the nearest integer, ties towards
    +infinity. *)
Definition Math_round (x : float) : Z := Qfloor (value x + 0.5).

Definition modelProgress (progress : float) : float :=
  Math_max 0 (Math_min 1 ((progress - 0.06) / 0.04)).

Definition modelScale (progress : float) : float :=
  if ltb progress 0.15 then 0.8 else 0.8 + 0.2 * modelProgress progress.

Definition headerProgress (progress : float) : float :=
  Math_max 0 (Math_min 1 ((progress - 0.12) / 0.13)).

Definition header1XPercent (progress : float) : float :=
  if ltb progress 0.08 then 0
  else if ltb 0.3 progress then -100
  else -100 * headerProgress progress.

Definition maskSize (progress : float) : float :=
  if ltb progress 0.2 then 0
  else if ltb 0.28 progress then 100
  else (100 * (progress - 0.2)) / 0.08.

Definition slideProgress (progress : float) : float :=
  (progress - 0.18) / 0.17.

Definition header2XPercent (progress : float) : float :=
  if ltb progress 0.18 then 100
  else if ltb 0.35 progress then -100
  else 100 - 200 * slideProgress progress.

Definition colorProgress (progress : float) : float :=
  if ltb progress 0.18 then 0
  else if ltb 0.24 progress then 1
  else (progress - 0.18) / 0.06.

Definition colorValue (progress : float) : Z :=
  Math_round (255 * (1 - colorProgress progress)).

(** The values handed to [gsap.to] for the DOM targets by one call of
    the main [onUpdate]. *)
Record Targets : Type := mkTargets {
  gradientOpacity : float;
  container_scale : float;
  container_sticky : bool;
  header1_xPercent : float;
  mask_clipPath_radius : float;
  header2_xPercent : float;
  header2_zIndex : Z;
  header2_opacity : float;
  header2_color : CssColor
}.

Definition onUpdate_targets (progress : float) : Targets :=
  let v := colorValue progress in
  {| gradientOpacity := if leb 0.08 progress then 0 else 1;
     container_scale := modelScale progress;
     container_sticky := leb 0.9 progress;
     header1_xPercent := header1XPercent progress;
     mask_clipPath_radius := maskSize progress;
     header2_xPercent := header2XPercent progress;
     header2_zIndex := if leb 0.18 progress then 10%Z else 1%Z;
     header2_opacity := if leb 0.18 progress then 1 else 0;
     header2_color := rgb v v v |}.

End B64.

(** ** Schedules and observations used in the statements *)

(** The progress schedule 1/n, 2/n, ..., n/n. *)
Definition increments (n : nat) : list Q :=
  map (fun k => inject_Z (Z.of_nat k) / inject_Z (Z.of_nat n)) (seq 1 n).

(** The angle the model has been turned about its Y axis; [0] while
    there is no model. *)
Definition model_turned (s : Scene) : Q :=
  match model s with
  | Some m => turned m
  | None => 0
  end.

(** The first 998 entries of [increments 1000]. *)
Definition increments_prefix : list Q :=
  map (fun k => inject_Z (Z.of_nat k) / inject_Z (Z.of_nat 1000)) (seq 1 998).

(** A desktop page whose model, with a bounding box of 1 x 2 x 1 centred
    at (0, 1, 0), has just loaded, before any scroll update. *)
Definition sceneAfterLoad : Scene :=
  onModelLoaded false (mkVector3 1 2 1) (mkVector3 0 1 0) initialScene.

(** ** Tooltip selectors *)

(** [String.prototype.includes] *)
Fixpoint includes (needle s : string) : bool :=
  if String.prefix needle s then true
  else match s with
       | EmptyString => false
       | String _ s' => includes needle s'
       end.

(** The [elements] of the two entries of [tooltipSelectors]. *)
Definition tooltipSelectors : list (list string) :=
  [ [ ".tooltip:nth-child(2) .divider";
      ".tooltip:nth-child(2) .icon";
      ".tooltip:nth-child(2) .title .line > span";
      ".tooltip:nth-child(2) .description .line > span" ];
    [ ".tooltip:nth-child(3) .divider";
      ".tooltip:nth-child(3) .icon";
      ".tooltip:nth-child(3) .title .line > span";
      ".tooltip:nth-child(3) .description .line > span" ] ]%string.

(** The two filters of [createTooltipTimelines]. *)
Definition iconElements (elements : list string) : list string :=
  filter (fun el => includes ".icon" el) elements.

Definition textElements (elements : list string) : list string :=
  filter (fun el => negb (includes ".icon" el) && negb (includes ".divider" el))
         elements.

(** ** The pinned fixed text trigger *)

(** The state of [.pinned-fixed-text] the trigger animates to
    ([gsap.to]) or sets ([gsap.set]). *)
Record PinnedText : Type := mkPinnedText { text_opacity : Q; text_y : Q }.

(** [gsap.set(".pinned-fixed-text", { opacity: 0, y: 30, ... })] *)
Definition pinnedText_initial : PinnedText :=
  {| text_opacity := 0; text_y := 30 |}.

Definition shouldShowText (progress : Q) : bool :=
  (progress >=? 0.4) && (progress <=? 0.65).

Definition pinnedText_onUpdate (progress : Q) : PinnedText :=
  if shouldShowText progress
  then {| text_opacity := 1; text_y := 0 |}
  else {| text_opacity := 0; text_y := 30 |}.

Definition pinnedText_onRefresh (progress : Q) : PinnedText :=
  if shouldShowText progress
  then {| text_opacity := 1; text_y := 0 |}
  else {| text_opacity := 0; text_y := 30 |}.

(** ** Trigger lengths *)

(** The progress ScrollTrigger reports for a trigger created with
    [start: "top top"] and [end: "+=length"], once the page has been
    scrolled by [scrolled] past the start. *)
Definition triggerProgress (scrolled length : Q) : Q :=
  clamp (scrolled / length) 0 1.

(** The [end] of the four triggers on [.product-overview], for a
    viewport of height [innerHeight]. *)
Definition mainTrigger_length (innerHeight : Q) : Q := innerHeight * 4.
Definition pinnedTextTrigger_length (innerHeight : Q) : Q := innerHeight * 1.8.
Definition logoTrigger_length (innerHeight : Q) : Q := innerHeight * 5.
Definition tooltipTrigger_length (innerHeight : Q) : Q := innerHeight * 4.

(** ** The remaining tooltip callbacks *)

Definition tooltip_refreshInRange (progress : Q) : bool :=
  (progress >=? 0.35) && (progress <=? 0.45).

Definition tooltip_onEnter (progress : Q) (t : Timeline) : Timeline :=
  if progress >=? 0.35 then timeline.play t else t.

Definition tooltip_onLeave (progress : Q) (t : Timeline) : Timeline :=
  if progress >? 0.45 then timeline.reverse t else t.

Definition tooltip_onEnterBack (progress : Q) (t : Timeline) : Timeline :=
  if (progress >=? 0.35) && (progress <=? 0.45) then timeline.play t else t.

Definition tooltip_onLeaveBack (progress : Q) (t : Timeline) : Timeline :=
  if progress <? 0.35 then timeline.reverse t else t.

(** The check [createTooltipScrollTriggers] runs 200 ms after the
    triggers exist, for a page that has [.product-overview]:
    [scrollTop] is the page offset, [rectTop] the top of the section's
    bounding rectangle and [innerHeight] the viewport height. *)
Definition initialStateCheck (scrollTop rectTop innerHeight : Q)
           (timelines : list Timeline) : list Timeline :=
  let triggerTop := scrollTop + rectTop in
  let currentScroll := scrollTop in
  let endPoint := triggerTop + innerHeight * 1.8 in
  if (currentScroll >=? triggerTop) && (currentScroll <=? endPoint) then
    let progress := (currentScroll - triggerTop) / (innerHeight * 1.8) in
    let isInRange := (progress >=? 0.7) && (progress <=? 0.89) in
    map (fun t => if isInRange then timeline.progress 1 t
                  else timeline.progress 0 t) timelines
  else timelines.

(** ** Sessions: scroll updates and resizes around the model load *)

Inductive Event : Type :=
| Scroll (progress : Q)
| Resize (isMobile : bool) (center : Vector3).

Definition handle (e : Event) (s : Scene) : Scene :=
  match e with
  | Scroll progress => fst (onUpdate progress s)
  | Resize isMobile center => onResize isMobile center s
  end.

Fixpoint run (es : list Event) (s : Scene) : Scene :=
  match es with
  | [] => s
  | e :: es' => run es' (handle e s)
  end.

(** The globals after the events [before], the one load of the model
    and the events [after], from the start of the page. *)
Definition session (before : list Event) (isMobile : bool)
           (size center : Vector3) (after : list Event) : Scene :=
  run after (onModelLoaded isMobile size center (run before initialScene)).

(** The invariant of a loaded scene: the angle applied to the model is
    the angle the tracker holds. *)
Definition rotation_tracked (s : Scene) : Prop :=
  model s <> None /\ model_turned s == currentRotation s.

(** ** The earlier revision: the remaining rules of [onUpdate] *)

Module LegacyUpdate.

Definition modelProgress (progress : Q) : Q :=
  JS.Math_max 0 (JS.Math_min 1 ((progress - 0.15) / 0.1)).

Definition modelScale (progress : Q) : Q :=
  if progress <? 0.35 then 0.8 else 0.8 + 0.2 * modelProgress progress.

Definition headerProgress (progress : Q) : Q :=
  JS.Math_max 0 (JS.Math_min 1 ((progress - 0.3) / 0.35)).

Definition header1XPercent (progress : Q) : Q :=
  if progress <? 0.2 then 0
  else if progress >? 0.8 then -100
  else -100 * headerProgress progress.

Definition maskSize (progress : Q) : Q :=
  if progress <? 0.45 then 0
  else if progress >? 0.6 then 100
  else (100 * (progress - 0.45)) / 0.15.

Definition header2XPercent (progress : Q) : Q :=
  if progress <? 0.45 then 100
  else if progress >? 0.9 then -100
  else 100 - 200 * ((progress - 0.45) / 0.45).

Definition targetRotation (progress : Q) : Q := JS.Math_PI * 2 * progress.

Definition colorProgress (progress : Q) : Q :=
  if progress <? 0.45 then 0
  else if progress >? 0.6 then 1
  else (progress - 0.45) / 0.15.

Definition colorValue (progress : Q) : Z :=
  JS.Math_round (255 * (1 - colorProgress progress)).


End LegacyUpdate.

(** * Properties *)

(** ** Comparisons, minimum and maximum *)

Lemma lt_spec (x y : Q) : BoolSpec (x < y) (y <= x) (x <? y).
Proof.
  unfold JS.lt. destruct (x ?= y) eqn:E; constructor.
  - apply Qeq_alt in E. lra.
  - apply Qlt_alt in E. exact E.
  - apply Qgt_alt in E. lra.
Qed.

Ltac js_cases :=
  unfold JS.gt, JS.le, JS.ge in *;
  repeat match goal with
  | |- context [JS.lt ?x ?y] => destruct (lt_spec x y)
  end;
  cbn [negb andb] in *.

Ltac minmax_at a b spec f :=
  let H := fresh "Hm" in
  pose proof (spec a b) as H;
  let m := fresh "m" in
  set (m := f a b) in *; clearbody m.

Ltac minmax :=
  unfold JS.Math_max, JS.Math_min, JS.Math_abs in *;
  repeat match goal with
  | |- context [Qmax ?a ?b] => minmax_at a b Q.max_spec Qmax
  | |- context [Qmin ?a ?b] => minmax_at a b Q.min_spec Qmin
  | _ : context [Qmax ?a ?b] |- _ => minmax_at a b Q.max_spec Qmax
  | _ : context [Qmin ?a ?b] |- _ => minmax_at a b Q.min_spec Qmin
  end.

(** Division by a literal becomes multiplication by its inverse. *)
Ltac qdiv :=
  unfold Qdiv in *;
  repeat match goal with
  | |- context [/ ?c] =>
      let v := eval vm_compute in (/ c) in
      progress change (/ c) with v
  end.

Ltac window_arith := cbn [w_start w_end] in *; qdiv; minmax; js_cases; lra.

(** ** Window evaluation *)

Lemma clamp_range (x : Q) : 0 <= clamp x 0 1 <= 1.
Proof. unfold clamp. minmax. lra. Qed.

Lemma clamp_mono (x y : Q) : x <= y -> clamp x 0 1 <= clamp y 0 1.
Proof. intros H. unfold clamp. minmax. lra. Qed.

Lemma windowProgress_range (p : Q) (w : AnimationWindow) :
  0 <= windowProgress p w <= 1.
Proof. apply clamp_range. Qed.

Lemma windowProgress_mono (p q : Q) (w : AnimationWindow) :
  w_start w < w_end w -> p <= q -> windowProgress p w <= windowProgress q w.
Proof.
  intros Hw Hpq. unfold windowProgress. apply clamp_mono.
  unfold Qdiv. apply Qmult_le_compat_r.
  - lra.
  - apply Qinv_le_0_compat. lra.
Qed.

Lemma entranceProgress_window (p : Q) :
  entranceProgress p == windowProgress p (mkWindow 0 0.05).
Proof. unfold entranceProgress, windowProgress, clamp. window_arith. Qed.

Lemma resize_entranceProgress_window (p : Q) :
  resize_entranceProgress p == windowProgress p (mkWindow 0 0.12).
Proof. unfold resize_entranceProgress, windowProgress, clamp. window_arith. Qed.

Lemma modelProgress_window (p : Q) :
  modelProgress p == windowProgress p (mkWindow 0.06 0.1).
Proof. unfold modelProgress, windowProgress, clamp. window_arith. Qed.

Lemma headerProgress_window (p : Q) :
  headerProgress p == windowProgress p (mkWindow 0.12 0.25).
Proof. unfold headerProgress, windowProgress, clamp. window_arith. Qed.

Lemma colorProgress_window (p : Q) :
  colorProgress p == windowProgress p (mkWindow 0.18 0.24).
Proof. unfold colorProgress, windowProgress, clamp. js_cases; window_arith. Qed.

Lemma configuredRules_window (w : AnimationWindow) (f : Q -> Q) :
  In (w, f) configuredRules ->
  w_start w < w_end w /\ forall p, f p == windowProgress p w.
Proof.
  unfold configuredRules. cbn [In].
  intros [H|[H|[H|[]]]]; injection H as <- <-;
    (split; [cbn [w_start w_end]; lra|]); intro p.
  - apply entranceProgress_window.
  - apply modelProgress_window.
  - apply headerProgress_window.
Qed.

(** C1.  For every progress [p] in [0,1] and every window [w] of a
    [Math.max]/[Math.min] rule of the main handler (entrance, container
    and header-1), [w.start < w.end] and the sub-progress the rule
    derives from [p] is
    [clamp((p - w.start) / (w.end - w.start), 0, 1)]; it lies in [0,1]
    and is monotone non-decreasing in [p]. *)
Theorem window_subprogress_is_clamped
  (w : AnimationWindow) (f : Q -> Q) (p q : Q) :
  In (w, f) configuredRules ->
  0 <= p <= 1 -> 0 <= q <= 1 ->
  w_start w < w_end w /\
  f p == windowProgress p w /\
  0 <= f p <= 1 /\
  (p <= q -> f p <= f q).
Proof.
  intros Hin Hp Hq.
  destruct (configuredRules_window w f Hin) as [Hw Hf].
  split; [exact Hw|]. split; [apply Hf|]. split.
  - rewrite (Hf p). apply windowProgress_range.
  - intro Hpq. rewrite (Hf p), (Hf q). now apply windowProgress_mono.
Qed.

Lemma window_subprogress_is_clamped_witness :
  w_start (mkWindow 0.12 0.25) < w_end (mkWindow 0.12 0.25) /\
  headerProgress 0.2 == windowProgress 0.2 (mkWindow 0.12 0.25) /\
  0 <= headerProgress 0.2 <= 1 /\
  (0.2 <= 0.5 -> headerProgress 0.2 <= headerProgress 0.5).
Proof.
  apply (window_subprogress_is_clamped (mkWindow 0.12 0.25) headerProgress 0.2 0.5).
  - unfold configuredRules. cbn [In]. right. right. left. reflexivity.
  - lra.
  - lra.
Defined.

(** ** Rotation *)

Lemma Qabs_spec (x : Q) :
  (0 <= x /\ Qabs x == x) \/ (x <= 0 /\ Qabs x == - x).
Proof.
  destruct (Qlt_le_dec x 0) as [H|H].
  - right. split; [lra|]. apply Qabs_neg. lra.
  - left. split; [exact H|]. now apply Qabs_pos.
Qed.

Ltac qabs :=
  unfold JS.Math_abs in *;
  repeat match goal with
  | |- context [Qabs ?a] =>
      let H := fresh "Ha" in
      pose proof (Qabs_spec a) as H;
      let m := fresh "r" in
      set (m := Qabs a) in *; clearbody m
  end.

Lemma deliver_app (ps qs : list Q) (s : Scene) (l : option Targets) :
  deliver (ps ++ qs) s l =
  deliver qs (fst (deliver ps s l)) (snd (deliver ps s l)).
Proof.
  revert s l. induction ps as [|p ps IH]; intros s l; cbn [app deliver].
  - reflexivity.
  - apply IH.
Qed.

(** One update keeps the applied angle equal to the tracker and leaves
    it within the threshold of the target. *)
Lemma onUpdate_rotation (p : Q) (s : Scene) (m : Object3D) :
  model s = Some m -> turned m == currentRotation s ->
  exists m',
    model (fst (onUpdate p s)) = Some m' /\
    turned m' == currentRotation (fst (onUpdate p s)) /\
    Qabs (turned m' - targetRotation p) <= 0.001.
Proof.
  intros Hm Hinv. unfold onUpdate. cbn [fst model currentRotation].
  rewrite Hm.
  destruct (lt_spec 0.001 (JS.Math_abs (rotationDiff p (currentRotation s))))
    as [Hbig|Hsmall]; unfold JS.gt.
  - destruct (0.001 <? _) eqn:E.
    + cbn [fst snd]. eexists. split; [reflexivity|].
      cbn [rotateOnAxis_Y turned]. unfold rotationDiff in *.
      split; [lra|]. qabs. lra.
    + destruct (lt_spec 0.001 (JS.Math_abs (rotationDiff p (currentRotation s))));
        [discriminate|lra].
  - destruct (0.001 <? _) eqn:E.
    + destruct (lt_spec 0.001 (JS.Math_abs (rotationDiff p (currentRotation s))));
        [lra|discriminate].
    + cbn [fst snd]. exists m. split; [reflexivity|]. split; [exact Hinv|].
      unfold rotationDiff in *. revert Hsmall. qabs. lra.
Qed.

Lemma deliver_rotation (ps : list Q) (s : Scene) (m : Object3D)
      (l : option Targets) :
  model s = Some m -> turned m == currentRotation s ->
  exists m',
    model (fst (deliver ps s l)) = Some m' /\
    turned m' == currentRotation (fst (deliver ps s l)).
Proof.
  revert s m l. induction ps as [|p ps IH]; intros s m l Hm Hinv.
  - exists m. cbn [deliver fst]. now split.
  - cbn [deliver].
    destruct (onUpdate_rotation p s m Hm Hinv) as (m1 & Hm1 & Hinv1 & _).
    exact (IH _ m1 _ Hm1 Hinv1).
Qed.

Lemma onUpdate_model (p : Q) (s : Scene) (m : Object3D) :
  model s = Some m ->
  model (fst (onUpdate p s)) =
  Some (if JS.Math_abs (rotationDiff p (currentRotation s)) >? 0.001
        then rotateOnAxis_Y (rotationDiff p (currentRotation s)) m
        else m).
Proof.
  intro Hm. unfold onUpdate. cbn [fst model]. rewrite Hm.
  now destruct (_ >? _).
Qed.

(** When the last two targets are more than twice the threshold apart,
    the last update is applied and the angle is the last target. *)
Lemma last_update_exact (ps : list Q) (p q : Q) (s : Scene) (m : Object3D) :
  model s = Some m -> turned m == currentRotation s ->
  0.002 < Qabs (targetRotation q - targetRotation p) ->
  model_turned (fst (deliver (ps ++ [p; q]) s None)) == targetRotation q.
Proof.
  intros Hm Hinv Hfar. rewrite deliver_app. cbn [deliver fst].
  destruct (deliver_rotation ps s m None Hm Hinv) as (m1 & Hm1 & Hinv1).
  destruct (onUpdate_rotation p _ m1 Hm1 Hinv1) as (m2 & Hm2 & Hinv2 & Hclose).
  unfold model_turned. rewrite (onUpdate_model q _ m2 Hm2).
  set (c := currentRotation (fst (onUpdate p (fst (deliver ps s None))))) in *.
  destruct (lt_spec 0.001 (JS.Math_abs (rotationDiff q c))) as [Hbig|Hsmall];
    unfold JS.gt.
  - destruct (0.001 <? _) eqn:E.
    + cbn [rotateOnAxis_Y turned]. unfold rotationDiff. lra.
    + destruct (lt_spec 0.001 (JS.Math_abs (rotationDiff q c)));
        [discriminate|lra].
  - exfalso. unfold rotationDiff in Hsmall.
    revert Hfar Hclose Hsmall. qabs. lra.
Qed.

Lemma increments_1000_split :
  increments 1000 =
  increments_prefix ++ [inject_Z 999 / inject_Z 1000; inject_Z 1000 / inject_Z 1000].
Proof.
  unfold increments, increments_prefix.
  change (seq 1 1000) with (seq 1 (998 + 2)).
  rewrite seq_app, map_app. reflexivity.
Qed.

(** The rotation target is 8 * pi times the raw progress; an update
    turns the model about the Y axis by the difference to the tracked
    angle only when that difference exceeds 0.001; after any finite
    sequence of updates that ends at progress 1 the accumulated angle is
    within 0.001 of 8 * pi; and one jump to 1 and 1000 increments of
    1/1000 give the same final angle. *)
Theorem rotation_accumulates_to_full_turns
  (s : Scene) (m : Object3D) (ps : list Q) :
  model s = Some m ->
  turned m == currentRotation s ->
  (forall p, targetRotation p == 8 * JS.Math_PI * p) /\
  (forall p,
     let diff := rotationDiff p (currentRotation s) in
     model (fst (onUpdate p s)) =
     Some (if JS.Math_abs diff >? 0.001 then rotateOnAxis_Y diff m else m)) /\
  Qabs (model_turned (fst (deliver (ps ++ [1]) s None))
        - 4 * (2 * JS.Math_PI)) <= 0.001 /\
  model_turned (fst (deliver [1] sceneAfterLoad None)) == 8 * JS.Math_PI /\
  model_turned (fst (deliver (increments 1000) sceneAfterLoad None))
  == model_turned (fst (deliver [1] sceneAfterLoad None)).
Proof.
  intros Hm Hinv. split; [|split; [|split; [|split]]].
  - intro p. unfold targetRotation. lra.
  - intros p diff. subst diff. now apply onUpdate_model.
  - rewrite deliver_app. cbn [deliver fst].
    destruct (deliver_rotation ps s m None Hm Hinv) as (m1 & Hm1 & Hinv1).
    destruct (onUpdate_rotation 1 _ m1 Hm1 Hinv1) as (m2 & Hm2 & _ & Hclose).
    unfold model_turned. rewrite Hm2.
    unfold targetRotation in Hclose. revert Hclose. qabs.
    intro Hclose.
    pose proof (Qabs_spec (turned m2 - 4 * (2 * JS.Math_PI))) as Hb.
    lra.
  - vm_compute. reflexivity.
  - assert (H1 : model_turned (fst (deliver [1] sceneAfterLoad None))
                 == 8 * JS.Math_PI) by (vm_compute; reflexivity).
    rewrite H1, increments_1000_split.
    erewrite (last_update_exact _ _ _ sceneAfterLoad).
    + vm_compute. reflexivity.
    + reflexivity.
    + reflexivity.
    + vm_compute. reflexivity.
Qed.

Lemma rotation_accumulates_to_full_turns_witness :
  Qabs (model_turned (fst (deliver ([0.3; 0.7; 0.2] ++ [1]) sceneAfterLoad None))
        - 4 * (2 * JS.Math_PI)) <= 0.001.
Proof.
  refine (proj1 (proj2 (proj2
    (rotation_accumulates_to_full_turns sceneAfterLoad _
       [0.3; 0.7; 0.2] _ _)))).
  - reflexivity.
  - reflexivity.
Defined.

(** C2 at progress 1.  Whatever updates come first, once progress 1 has
    been delivered to the freshly loaded scene the model has been
    turned by 8 * pi within 0.001: four full turns of 2 * pi, more than
    25 radians short of the eight full turns the rule's comment counts.
    One jump to 1 gives 8 * pi exactly.  The earlier revision, whose
    comment counts two full rotations, targets 2 * pi, one full turn. *)
Theorem rotation_at_full_progress_is_four_turns (ps : list Q) :
  let angle := model_turned (fst (deliver (ps ++ [1]) sceneAfterLoad None)) in
  targetRotation 1 == 4 * (2 * JS.Math_PI) /\
  Qabs (angle - 4 * (2 * JS.Math_PI)) <= 0.001 /\
  25 < 8 * (2 * JS.Math_PI) - angle /\
  model_turned (fst (deliver [1] sceneAfterLoad None)) == 4 * (2 * JS.Math_PI) /\
  LegacyUpdate.targetRotation 1 == 1 * (2 * JS.Math_PI).
Proof.
  cbv zeta.
  assert (Hclose :
    Qabs (model_turned (fst (deliver (ps ++ [1]) sceneAfterLoad None))
          - 4 * (2 * JS.Math_PI)) <= 0.001).
  { rewrite deliver_app. cbn [deliver fst].
    edestruct (deliver_rotation ps sceneAfterLoad) as (m1 & Hm1 & Hinv1);
      [reflexivity|reflexivity|].
    destruct (onUpdate_rotation 1 _ m1 Hm1 Hinv1) as (m2 & Hm2 & _ & Hc).
    unfold model_turned. rewrite Hm2.
    unfold targetRotation in Hc. revert Hc. qabs. intro Hc.
    pose proof (Qabs_spec (turned m2 - 4 * (2 * JS.Math_PI))) as Hb.
    lra. }
  split; [unfold targetRotation; lra|]. split; [exact Hclose|].
  split; [|split].
  - assert (Hpi : 3.14 < JS.Math_PI) by reflexivity.
    revert Hclose. qabs. lra.
  - vm_compute. reflexivity.
  - unfold LegacyUpdate.targetRotation. lra.
Qed.

(** ** Reversibility *)






(** ** Colour ramps *)

Lemma Math_round_bounds (x : Q) (lo hi : Z) :
  inject_Z lo <= x + 0.5 -> x + 0.5 < inject_Z hi + 1 ->
  (lo <= JS.Math_round x <= hi)%Z.
Proof.
  intros Hlo Hhi. unfold JS.Math_round. split.
  - rewrite <- (Qfloor_Z lo). apply Qfloor_resp_le. exact Hlo.
  - pose proof (Qfloor_le (x + 0.5)) as Hf.
    assert (H : (Qfloor (x + 0.5) < hi + 1)%Z).
    { rewrite Zlt_Qlt, inject_Z_plus. change (inject_Z 1) with 1. lra. }
    lia.
Qed.

(** The header-2 ramp does what C4 says: every channel is
    [round(255 * (1 - t))] for the sub-progress [t] of the window
    [0.18, 0.24], white up to the start, black from the end on, 128 at
    the midpoint, and always within [0, 255]. *)
Lemma header2_color_ramp (p : Q) (s : Scene) :
  header2_color (snd (onUpdate p s))
  = rgb (colorValue p) (colorValue p) (colorValue p) /\
  colorValue p
  = JS.Math_round (255 * (1 - windowProgress p (mkWindow 0.18 0.24))) /\
  (0 <= colorValue p <= 255)%Z /\
  (p <= 0.18 -> colorValue p = 255%Z) /\
  (0.24 <= p -> colorValue p = 0%Z) /\
  colorValue 0.21 = 128%Z.
Proof.
  split; [reflexivity|]. split; [|split; [|split; [|split]]].
  - unfold colorValue, JS.Math_round. apply Qfloor_comp.
    rewrite (colorProgress_window p). reflexivity.
  - unfold colorValue. pose proof (colorProgress_window p) as Hw.
    pose proof (windowProgress_range p (mkWindow 0.18 0.24)) as Hr.
    apply Math_round_bounds; change (inject_Z 0) with 0;
      change (inject_Z 255) with 255; lra.
  - intro Hp. unfold colorValue.
    assert (Hc : colorProgress p == 0).
    { unfold colorProgress. js_cases; qdiv; lra. }
    assert (Hb : (255 <= JS.Math_round (255 * (1 - colorProgress p)) <= 255)%Z).
    { apply Math_round_bounds; change (inject_Z 255) with 255; lra. }
    lia.
  - intro Hp. unfold colorValue.
    assert (Hc : colorProgress p == 1).
    { unfold colorProgress. js_cases; qdiv; lra. }
    assert (Hb : (0 <= JS.Math_round (255 * (1 - colorProgress p)) <= 0)%Z).
    { apply Math_round_bounds; change (inject_Z 0) with 0; lra. }
    lia.
  - vm_compute. reflexivity.
Qed.

(** C4 at the logo trigger.  The logo ramp divides by 0.01 where its
    window [0.2, 0.28] is 0.08 wide: at the midpoint 0.24 it writes
    rgb(-765, -765, -765) and at the window end 0.28
    rgb(-1785, -1785, -1785), outside [0, 255] and not black. *)
Theorem logo_color_leaves_channel_range :
  logo_onUpdate 0.24 = rgb (-765) (-765) (-765) /\
  logo_onUpdate 0.28 = rgb (-1785) (-1785) (-1785) /\
  channels (logo_onUpdate 0.28) <> (0, 0, 0)%Z /\
  JS.Math_round (255 * (1 - windowProgress 0.24 (mkWindow 0.2 0.28))) = 128%Z /\
  JS.Math_round (255 * (1 - windowProgress 0.28 (mkWindow 0.2 0.28))) = 0%Z.
Proof.
  repeat split; try (vm_compute; reflexivity).
  vm_compute. discriminate.
Qed.

(** ** Mask reveal *)

(** The radii the binary64 handler writes for the progress sequence
    0, 0.1, 0.2, 0.24, 0.28, 0.5. *)
Lemma mask_radius_scenario_b64 :
  map (fun x => B64.mask_clipPath_radius (B64.onUpdate_targets x))
      [0; 0.1; 0.2; 0.24; 0.28; 0.5]%float
  = [0; 0; 0; 49.999999999999979; 100.00000000000001; 100]%float.
Proof. vm_compute. reflexivity. Qed.

(** C5, as the code has it.  The mask radius the handler writes is
    exactly 0 for every progress the script finds below 0.2 and exactly
    100 for every progress it finds above 0.28.  In between it is the
    binary64 value of the linear expression (100 * (p - 0.2)) / 0.08:
    for the progress sequence 0, 0.1, 0.2, 0.24, 0.28, 0.5 the script
    writes 0, 0, 0, 49.999999999999979, 100.00000000000001, 100, each
    within 10^-13 of the radii 0, 0, 0, 50, 100, 100. *)
Theorem mask_radius_is_a_guarded_ramp (x : float) :
  let r := B64.mask_clipPath_radius (B64.onUpdate_targets x) in
  (ltb x 0.2 = true -> r = 0%float) /\
  (ltb x 0.2 = false -> ltb 0.28 x = true -> r = 100%float) /\
  (ltb x 0.2 = false -> ltb 0.28 x = false ->
   r = ((100 * (x - 0.2)) / 0.08)%float) /\
  map (fun x => B64.mask_clipPath_radius (B64.onUpdate_targets x))
      [0; 0.1; 0.2; 0.24; 0.28; 0.5]%float
  = [0; 0; 0; 49.999999999999979; 100.00000000000001; 100]%float /\
  Forall2 (fun r c => Qabs (B64.value r - c) <= 1 # 10000000000000)
          (map (fun x => B64.mask_clipPath_radius (B64.onUpdate_targets x))
               [0; 0.1; 0.2; 0.24; 0.28; 0.5]%float)
          [0; 0; 0; 50; 100; 100].
Proof.
  cbv zeta.
  assert (Hf : B64.mask_clipPath_radius (B64.onUpdate_targets x)
               = B64.maskSize x) by reflexivity.
  rewrite Hf.
  split; [|split; [|split; [|split]]].
  - intro Hlt. unfold B64.maskSize. now rewrite Hlt.
  - intros Hlt Hgt. unfold B64.maskSize. now rewrite Hlt, Hgt.
  - intros Hlt Hgt. unfold B64.maskSize. now rewrite Hlt, Hgt.
  - exact mask_radius_scenario_b64.
  - rewrite mask_radius_scenario_b64.
    repeat constructor; vm_compute; discriminate.
Qed.

Lemma mask_radius_is_a_guarded_ramp_witness :
  B64.mask_clipPath_radius (B64.onUpdate_targets 0.1) = 0%float /\
  B64.mask_clipPath_radius (B64.onUpdate_targets 0.5) = 100%float /\
  B64.mask_clipPath_radius (B64.onUpdate_targets 0.24)
  = ((100 * (0.24 - 0.2)) / 0.08)%float.
Proof.
  pose proof (mask_radius_is_a_guarded_ramp 0.1) as (A1 & _).
  pose proof (mask_radius_is_a_guarded_ramp 0.5) as (_ & B2 & _).
  pose proof (mask_radius_is_a_guarded_ramp 0.24) as (_ & _ & C3 & _).
  split; [apply A1; reflexivity|].
  split; [apply B2; reflexivity|apply C3; reflexivity].
Defined.

(** C5, as stated, fails: at progress 0.24 the script writes the radius
    49.999999999999979, not 50, and at 0.28 it writes
    100.00000000000001, not 100. *)
Lemma mask_radius_at_midpoint_is_not_50 :
  B64.mask_clipPath_radius (B64.onUpdate_targets 0.24) = 49.999999999999979%float /\
  B64.mask_clipPath_radius (B64.onUpdate_targets 0.28) = 100.00000000000001%float /\
  B64.value (B64.mask_clipPath_radius (B64.onUpdate_targets 0.24)) < 50 /\
  100 < B64.value (B64.mask_clipPath_radius (B64.onUpdate_targets 0.28)) /\
  map (fun x => B64.mask_clipPath_radius (B64.onUpdate_targets x))
      [0; 0.1; 0.2; 0.24; 0.28; 0.5]%float
  <> [0; 0; 0; 50; 100; 100]%float.
Proof.
  split; [vm_compute; reflexivity|]. split; [vm_compute; reflexivity|].
  split; [vm_compute; reflexivity|]. split; [vm_compute; reflexivity|].
  rewrite mask_radius_scenario_b64. intro H.
  assert (E := f_equal (fun l => eqb (nth 3 l 0%float) 50) H).
  vm_compute in E. discriminate.
Qed.

(** ** Model entrance *)

Lemma setupModel_start_position
  (isMobile : bool) (center : Vector3) (s : Scene) (m : Object3D)
  (size : Vector3) :
  model s = Some m -> modelSize s = Some size ->
  model_y (setupModel isMobile center s)
  = Some (vy (finalModelPosition (setupModel isMobile center s))
          - vy size * 1.5).
Proof.
  intros Hm Hs. unfold setupModel, model_y. rewrite Hm, Hs. reflexivity.
Qed.

(** C6.  With the model loaded: the entrance target at progress 0 is
    [FinalPosition.y - ModelExtent.y * 1.5]; at every progress at or
    above the end of the entrance window (0.05 on the scroll path) it
    is [FinalPosition.y]; at every progress the target lies below
    [FinalPosition.y] by the remaining fraction of 1.5 times the
    vertical extent; and [setupModel] places the model 1.5 times its
    vertical extent below the final position it stores. *)
Theorem entrance_displacement
  (s : Scene) (m : Object3D) (size : Vector3) (p : Q)
  (isMobile : bool) (center : Vector3) :
  model s = Some m ->
  modelSize s = Some size ->
  let finalY := vy (finalModelPosition s) in
  (exists y0, model_position_y (snd (onUpdate 0 s)) = Some y0 /\
              y0 == finalY - vy size * 1.5) /\
  (exists y, model_position_y (snd (onUpdate p s)) = Some y /\
             finalY - y == (1 - entranceProgress p) * (vy size * 1.5) /\
             (0.05 <= p -> y == finalY)) /\
  (exists y', model_y (setupModel isMobile center s) = Some y' /\
              vy (finalModelPosition (setupModel isMobile center s)) - y'
              == 1.5 * vy size).
Proof.
  intros Hm Hs finalY. split; [|split].
  - eexists. split.
    + unfold onUpdate. cbn [snd model_position_y]. rewrite Hm, Hs. reflexivity.
    + assert (He : entranceProgress 0 == 0) by (vm_compute; reflexivity).
      unfold currentY. fold finalY. rewrite He. lra.
  - eexists. split; [|split].
    + unfold onUpdate. cbn [snd model_position_y]. rewrite Hm, Hs. reflexivity.
    + unfold currentY. fold finalY. lra.
    + intro Hp. unfold currentY. fold finalY.
      assert (He : entranceProgress p == 1).
      { unfold entranceProgress. window_arith. }
      rewrite He. lra.
  - eexists. split.
    + apply (setupModel_start_position isMobile center s m size Hm Hs).
    + lra.
Qed.

Lemma entrance_displacement_witness :
  exists y, model_position_y (snd (onUpdate 0.3 sceneAfterLoad)) = Some y /\
            vy (finalModelPosition sceneAfterLoad) - y
            == (1 - entranceProgress 0.3) * (vy (mkVector3 1 2 1) * 1.5) /\
            (0.05 <= 0.3 -> y == vy (finalModelPosition sceneAfterLoad)).
Proof.
  refine (proj1 (proj2
    (entrance_displacement sceneAfterLoad _ (mkVector3 1 2 1) 0.3
       false (mkVector3 0 1 0) _ _))).
  - reflexivity.
  - reflexivity.
Defined.

(** C8 at a load in mid-scroll.  The page has been scrolled to
    progress 0.5 when the model (1 x 2 x 1, centred at (0, 1, 0))
    finishes loading: the load callback leaves the model at the start
    position, 3 below the final position, although the entrance state
    of progress 0.5 is the final position.  The resize listener, which
    calls [applyEntranceAnimationState] after [setupModel], is the path
    that applies the entrance state: whatever device class and centre
    a resize measures, it leaves the model at the final position it has
    just stored. *)
Theorem load_leaves_model_at_start_position
  (isMobile : bool) (center : Vector3) :
  let scrolled := fst (onUpdate 0.5 initialScene) in
  let loaded := onModelLoaded false (mkVector3 1 2 1) (mkVector3 0 1 0) scrolled in
  currentScrollProgress loaded = 0.5 /\
  vy (finalModelPosition loaded) == -1.1 /\
  (exists y, model_y loaded = Some y /\ y == -4.1) /\
  (exists y, model_position_y (snd (onUpdate 0.5 loaded)) = Some y /\
             y == -1.1) /\
  (exists y, model_y (onResize isMobile center loaded) = Some y /\
             y == vy (finalModelPosition (onResize isMobile center loaded))).
Proof.
  cbv zeta. split; [reflexivity|]. split; [vm_compute; reflexivity|].
  split; [|split].
  - eexists. split; [reflexivity|vm_compute; reflexivity].
  - eexists. split; [reflexivity|vm_compute; reflexivity].
  - eexists. split; [reflexivity|].
    cbn [onResize applyEntranceAnimationState setupModel onModelLoaded
         onUpdate fst model modelSize finalModelPosition
         currentScrollProgress position vy].
    unfold currentY.
    assert (He : resize_entranceProgress 0.5 == 1) by (vm_compute; reflexivity).
    rewrite He. lra.
Qed.

(** C9 at progress 0.06.  On the loaded scene the scroll path, whose
    entrance window ends at 0.05, targets the final position -1.1,
    while [applyEntranceAnimationState], whose window still ends at
    0.12, puts the model at -2.6; the earlier revision used 0.12 on
    both paths. *)
Theorem resize_and_scroll_entrance_disagree :
  let s := fst (onUpdate 0.06 sceneAfterLoad) in
  (exists y, model_position_y (snd (onUpdate 0.06 sceneAfterLoad)) = Some y /\
             y == -1.1) /\
  (exists y, model_y (applyEntranceAnimationState s) = Some y /\ y == -2.6) /\
  entranceProgress 0.06 == 1 /\
  resize_entranceProgress 0.06 == 0.5 /\
  (forall p, Legacy.entranceProgress p = resize_entranceProgress p).
Proof.
  cbv zeta. split; [|split; [|split; [|split]]].
  - eexists. split; [reflexivity|vm_compute; reflexivity].
  - eexists. split; [reflexivity|vm_compute; reflexivity].
  - vm_compute. reflexivity.
  - vm_compute. reflexivity.
  - reflexivity.
Qed.

(** ** Container scale *)

(** C10.  For every progress in [0,1] the container scale is 0.8 below
    0.15 and 1 from 0.15 on, and nothing in between: the sub-progress
    of the window 0.06 to 0.10 is already 1 when the branch at 0.15
    switches. *)
Theorem container_scale_is_a_step (p : Q) (s : Scene) :
  0 <= p <= 1 ->
  container_scale (snd (onUpdate p s)) = modelScale p /\
  (p < 0.15 -> modelScale p == 0.8) /\
  (0.15 <= p -> modelProgress p == 1 /\ modelScale p == 1) /\
  (modelScale p == 0.8 \/ modelScale p == 1).
Proof.
  intros _.
  assert (Hsat : 0.15 <= p -> modelProgress p == 1).
  { intro H. unfold modelProgress. window_arith. }
  split; [reflexivity|]. split; [|split].
  - intro H. unfold modelScale. js_cases; lra.
  - intro H. split; [now apply Hsat|].
    unfold modelScale. js_cases; [lra|]. rewrite (Hsat H). lra.
  - unfold modelScale. destruct (lt_spec p 0.15) as [H|H].
    + left. lra.
    + right. rewrite (Hsat H). lra.
Qed.

Lemma container_scale_is_a_step_witness :
  (0.08 < 0.15 -> modelScale 0.08 == 0.8) /\
  (0.15 <= 0.5 -> modelProgress 0.5 == 1 /\ modelScale 0.5 == 1).
Proof.
  split.
  - refine (proj1 (proj2 (container_scale_is_a_step 0.08 initialScene _))). lra.
  - refine (proj1 (proj2 (proj2 (container_scale_is_a_step 0.5 initialScene _)))). lra.
Defined.

(** ** Tooltips *)

Lemma legacy_tooltip_head (p trigger : Q) (t : Timeline) :
  head (Legacy.tooltip_update p trigger t)
  == windowProgress p (mkWindow trigger (trigger + 0.1)).
Proof.
  assert (Hd : trigger + 0.1 - trigger == 0.1) by lra.
  unfold windowProgress, clamp. cbn [w_start w_end]. rewrite Hd.
  unfold Legacy.tooltip_update, Legacy.tooltipProgress.
  js_cases; cbn [timeline.progress head]; window_arith.
Qed.

(** C7, as the code has it.  A progress update to a tooltip trigger
    never sets the timeline head: it calls [play] when
    0.45 <= p <= 0.85 and [reverse] otherwise, so from a cold start the
    head is still 0 after the update and reaches 1 once the ticker has
    run for the 1.5 seconds of the timeline; a refresh sets the head to
    exactly 1 or 0.  The earlier handler is the one that sets the head
    synchronously, to [clamp((p - trigger) / 0.1, 0, 1)]. *)
Theorem tooltip_update_chooses_direction (p trigger : Q) (t : Timeline) :
  head (tooltip_onUpdate p t) = head t /\
  (0.45 <= p <= 0.85 ->
     tooltip_onUpdate p t = timeline.play t /\
     head (tooltip_onUpdate p timeline.create) == 0 /\
     head (timeline.tick timeline.duration
             (tooltip_onUpdate p timeline.create)) == 1) /\
  (p < 0.45 \/ 0.85 < p -> tooltip_onUpdate p t = timeline.reverse t) /\
  (head (tooltip_onRefresh p t) == 1 \/ head (tooltip_onRefresh p t) == 0) /\
  head (Legacy.tooltip_update p trigger t)
  == windowProgress p (mkWindow trigger (trigger + 0.1)).
Proof.
  split; [|split; [|split; [|split]]].
  - unfold tooltip_onUpdate. now destruct (isInTooltipRange p).
  - intros [Hlo Hhi].
    assert (Hin : isInTooltipRange p = true).
    { unfold isInTooltipRange. js_cases; try reflexivity; lra. }
    unfold tooltip_onUpdate. rewrite Hin. split; [reflexivity|].
    split; vm_compute; reflexivity.
  - intros Hout.
    assert (Hin : isInTooltipRange p = false).
    { unfold isInTooltipRange. js_cases; try reflexivity; lra. }
    unfold tooltip_onUpdate. now rewrite Hin.
  - unfold tooltip_onRefresh.
    destruct (_ && _); [left|right]; vm_compute; reflexivity.
  - apply legacy_tooltip_head.
Qed.

Lemma tooltip_update_chooses_direction_witness :
  0.45 <= 0.65 <= 0.85 /\
  tooltip_onUpdate 0.65 timeline.create = timeline.play timeline.create /\
  head (tooltip_onUpdate 0.65 timeline.create) == 0 /\
  head (timeline.tick timeline.duration
          (tooltip_onUpdate 0.65 timeline.create)) == 1.
Proof.
  split; [lra|].
  refine (proj1 (proj2
    (tooltip_update_chooses_direction 0.65 0.45 timeline.create)) _).
  lra.
Defined.

(** C7, as stated, fails: from a cold start a progress of 0.65, in the
    middle of the visibility window [0.45, 0.85], leaves the head at 0
    after the update and after a refresh, where the claimed partial
    value is 0.5. *)
Lemma tooltip_cold_start_head_is_not_partial :
  0.45 <= 0.65 <= 0.85 /\
  windowProgress 0.65 (mkWindow 0.45 0.85) == 0.5 /\
  head (tooltip_onUpdate 0.65 timeline.create) == 0 /\
  head (tooltip_onRefresh 0.65 timeline.create) == 0 /\
  ~ (head (tooltip_onUpdate 0.65 timeline.create)
     == windowProgress 0.65 (mkWindow 0.45 0.85)).
Proof.
  split; [lra|]. split; [vm_compute; reflexivity|].
  split; [vm_compute; reflexivity|]. split; [vm_compute; reflexivity|].
  vm_compute. discriminate.
Qed.

(** * Further properties of the handlers *)

(** ** Header offsets *)

(** The comparisons against 0.08 and 0.3 in the header-1 rule never
    decide the value: the offset is -100 times the sub-progress of the
    window 0.12 to 0.25 at every progress, so it stays 0 up to 0.12, is
    -100 from 0.25 on, lies in [-100, 0] and never moves back to the
    right as the progress grows. *)
Theorem header1_offset_follows_its_window (p q : Q) :
  header1XPercent p == -100 * windowProgress p (mkWindow 0.12 0.25) /\
  -100 <= header1XPercent p <= 0 /\
  (p <= 0.12 -> header1XPercent p == 0) /\
  (0.25 <= p -> header1XPercent p == -100) /\
  (p <= q -> header1XPercent q <= header1XPercent p).
Proof.
  assert (Hw : forall x,
             header1XPercent x == -100 * windowProgress x (mkWindow 0.12 0.25)).
  { intro x. unfold header1XPercent, headerProgress, windowProgress, clamp.
    js_cases; window_arith. }
  pose proof (windowProgress_range p (mkWindow 0.12 0.25)) as Hr.
  split; [apply Hw|]. split; [rewrite (Hw p); lra|].
  split; [|split].
  - intro H. rewrite (Hw p). unfold windowProgress, clamp. window_arith.
  - intro H. rewrite (Hw p). unfold windowProgress, clamp. window_arith.
  - intro H. rewrite (Hw p), (Hw q).
    assert (Hm : windowProgress p (mkWindow 0.12 0.25)
                 <= windowProgress q (mkWindow 0.12 0.25)).
    { apply windowProgress_mono; [cbn; lra|exact H]. }
    lra.
Qed.

Lemma header1_offset_follows_its_window_witness :
  header1XPercent 0.1 == 0 /\
  header1XPercent 0.27 == -100 /\
  header1XPercent 0.27 <= header1XPercent 0.1.
Proof.
  pose proof (header1_offset_follows_its_window 0.1 0.27) as (_ & _ & H0 & _ & Hm).
  pose proof (header1_offset_follows_its_window 0.27 0.27) as (_ & _ & _ & H1 & _).
  split; [apply H0; lra|]. split; [apply H1; lra|apply Hm; lra].
Defined.

(** While header-2 is transparent (progress below 0.18) it is parked
    off-screen right, behind the mask and white; from 0.18 on it is
    opaque, in front, and its offset lies in [-100, 100] and only moves
    left as the progress grows. *)
Theorem header2_hidden_until_it_slides (p q : Q) (s : Scene) :
  let t := snd (onUpdate p s) in
  (p < 0.18 ->
     header2_opacity t = 0 /\ header2_zIndex t = 1%Z /\
     header2_xPercent t = 100 /\ header2_color t = rgb 255 255 255) /\
  (0.18 <= p ->
     header2_opacity t = 1 /\ header2_zIndex t = 10%Z /\
     -100 <= header2_xPercent t <= 100) /\
  (p <= q -> header2XPercent q <= header2XPercent p).
Proof.
  cbv zeta. unfold onUpdate. cbn [snd header2_opacity header2_zIndex
    header2_xPercent header2_color].
  split; [|split].
  - intro H.
    assert (Hc : colorValue p = 255%Z).
    { apply (header2_color_ramp p s). lra. }
    rewrite Hc. unfold header2XPercent. js_cases; try lra. repeat split.
  - intro H. unfold header2XPercent, slideProgress.
    js_cases; try lra; (split; [reflexivity|]); (split; [reflexivity|]);
      qdiv; lra.
  - intro H. unfold header2XPercent, slideProgress. js_cases; qdiv; lra.
Qed.

Lemma header2_hidden_until_it_slides_witness :
  header2_xPercent (snd (onUpdate 0.1 initialScene)) = 100 /\
  header2_opacity (snd (onUpdate 0.3 initialScene)) = 1 /\
  header2XPercent 0.3 <= header2XPercent 0.1.
Proof.
  pose proof (header2_hidden_until_it_slides 0.1 0.3 initialScene)
    as (Hhid & _ & Hm).
  pose proof (header2_hidden_until_it_slides 0.3 0.3 initialScene)
    as (_ & Hvis & _).
  split; [apply Hhid; lra|]. split; [apply Hvis; lra|apply Hm; lra].
Defined.

(** ** Mask and colour *)

(** The colour ramp runs ahead of the mask: header-2 is black whenever
    the mask is fully open, it is already at 170 or darker when the mask
    starts to open at 0.2, and it is pure white only while the mask is
    closed. *)
Theorem colour_runs_ahead_of_mask (p : Q) :
  (maskSize p == 100 -> colorValue p = 0%Z) /\
  (0.2 <= p -> (colorValue p <= 170)%Z) /\
  (colorValue p = 255%Z -> maskSize p == 0).
Proof.
  assert (Hdark : 0.2 <= p -> (0 <= colorValue p <= 170)%Z).
  { intro H. unfold colorValue.
    assert (Hc : 1 # 3 <= colorProgress p <= 1).
    { unfold colorProgress. js_cases; qdiv; lra. }
    apply Math_round_bounds; change (inject_Z 0) with 0;
      change (inject_Z 170) with 170; lra. }
  split; [|split].
  - intro H. apply (header2_color_ramp p initialScene).
    revert H. unfold maskSize. js_cases; qdiv; lra.
  - intro H. now apply Hdark.
  - intro H. destruct (Qlt_le_dec p 0.2) as [Hlt|Hge].
    + unfold maskSize. js_cases; lra.
    + apply Hdark in Hge. lia.
Qed.

Lemma colour_runs_ahead_of_mask_witness :
  colorValue 0.3 = 0%Z /\
  (colorValue 0.2 <= 170)%Z /\
  maskSize 0.1 == 0.
Proof.
  split; [|split].
  - apply (proj1 (colour_runs_ahead_of_mask 0.3)). vm_compute. reflexivity.
  - apply (proj1 (proj2 (colour_runs_ahead_of_mask 0.2))). lra.
  - apply (proj2 (proj2 (colour_runs_ahead_of_mask 0.1))). vm_compute. reflexivity.
Defined.

(** Above progress 0.35 every tween target of the main handler is at
    its end value, each through a guard or a saturated clamp: gradient
    hidden, container at full scale, header-1 and header-2 off-screen
    left, mask fully open, header-2 opaque, in front and black.  Only
    the sticky flag (at 0.9) and the rotation still depend on the
    progress.  The bound is strict: at 0.35 itself the header-2 guard
    does not fire and the script's ramp gives -99.999999999999972. *)
Theorem targets_saturate_above_035 (p : Q) (s : Scene) :
  0.35 < p ->
  let t := snd (onUpdate p s) in
  gradientOpacity t = 0 /\
  container_scale t == 1 /\
  header1_xPercent t = -100 /\
  mask_clipPath_radius t = 100 /\
  header2_xPercent t = -100 /\
  header2_zIndex t = 10%Z /\
  header2_opacity t = 1 /\
  header2_color t = rgb 0 0 0 /\
  (container_sticky t = true <-> 0.9 <= p) /\
  B64.header2_xPercent (B64.onUpdate_targets 0.35)
  = (-99.999999999999972)%float /\
  B64.onUpdate_targets 0.5
  = B64.mkTargets 0 1 false (-100) 100 (-100) 10 1 (rgb 0 0 0).
Proof.
  intros Hp. cbv zeta. unfold onUpdate.
  cbn [snd gradientOpacity container_scale header1_xPercent
       mask_clipPath_radius header2_xPercent header2_zIndex header2_opacity
       header2_color container_sticky].
  assert (Hc : colorValue p = 0%Z).
  { apply (header2_color_ramp p s). lra. }
  rewrite Hc.
  split; [js_cases; [lra|reflexivity]|].
  split; [unfold modelScale, modelProgress; js_cases; window_arith|].
  split; [unfold header1XPercent; js_cases; try reflexivity; lra|].
  split; [unfold maskSize; js_cases; try reflexivity; lra|].
  split; [unfold header2XPercent; js_cases; try reflexivity; lra|].
  split; [js_cases; [lra|reflexivity]|].
  split; [js_cases; [lra|reflexivity]|].
  split; [reflexivity|].
  split; [|split].
  - split.
    + js_cases; [discriminate|]. intros _. assumption.
    + intro Hs. js_cases; [lra|reflexivity].
  - vm_compute. reflexivity.
  - vm_compute. reflexivity.
Qed.

Lemma targets_saturate_above_035_witness :
  container_scale (snd (onUpdate 0.5 sceneAfterLoad)) == 1 /\
  header2_xPercent (snd (onUpdate 0.5 sceneAfterLoad)) = -100 /\
  header2_color (snd (onUpdate 0.5 sceneAfterLoad)) = rgb 0 0 0.
Proof.
  assert (H : 0.35 < 0.5) by reflexivity.
  pose proof (targets_saturate_above_035 0.5 sceneAfterLoad H)
    as (_ & H2 & _ & _ & H5 & _ & _ & H8 & _).
  split; [exact H2|]. split; [exact H5|exact H8].
Defined.

(** ** Before the model has loaded *)

Lemma handle_without_model (e : Event) (s : Scene) :
  model s = None ->
  model (handle e s) = None /\
  currentRotation (handle e s) = currentRotation s /\
  modelSize (handle e s) = modelSize s /\
  finalModelPosition (handle e s) = finalModelPosition s /\
  camera_z (handle e s) = camera_z s.
Proof.
  intro Hm. destruct e as [p|b c]; cbn [handle].
  - unfold onUpdate. cbn [fst model currentRotation modelSize
      finalModelPosition camera_z]. rewrite Hm. repeat split.
  - assert (Hsetup : setupModel b c s = s).
    { unfold setupModel. now rewrite Hm. }
    unfold onResize. rewrite Hsetup.
    unfold applyEntranceAnimationState. rewrite Hm. repeat split. exact Hm.
Qed.

(** While there is no model every model-dependent rule is a no-op:
    [setupModel], [applyEntranceAnimationState] and the resize listener
    return the globals unchanged, a scroll update hands no model
    position to the tween engine, and whatever scrolls and resizes
    arrive, the model stays absent and the rotation tracker, the stored
    size, final position and camera distance keep their values. *)
Theorem model_rules_are_noops_without_model
  (s : Scene) (p : Q) (isMobile : bool) (center : Vector3) (es : list Event) :
  model s = None ->
  setupModel isMobile center s = s /\
  applyEntranceAnimationState s = s /\
  onResize isMobile center s = s /\
  model_position_y (snd (onUpdate p s)) = None /\
  model (run es s) = None /\
  currentRotation (run es s) = currentRotation s /\
  modelSize (run es s) = modelSize s /\
  finalModelPosition (run es s) = finalModelPosition s /\
  camera_z (run es s) = camera_z s.
Proof.
  intro Hm.
  assert (Hsetup : setupModel isMobile center s = s).
  { unfold setupModel. now rewrite Hm. }
  assert (Happly : applyEntranceAnimationState s = s).
  { unfold applyEntranceAnimationState. now rewrite Hm. }
  split; [exact Hsetup|]. split; [exact Happly|].
  split; [unfold onResize; now rewrite Hsetup|].
  split; [unfold onUpdate; cbn [snd model_position_y]; now rewrite Hm|].
  clear Hsetup Happly. revert s Hm.
  induction es as [|e es IH]; intros s Hm; cbn [run].
  - repeat split. exact Hm.
  - destruct (handle_without_model e s Hm) as (H1 & H2 & H3 & H4 & H5).
    destruct (IH _ H1) as (G1 & G2 & G3 & G4 & G5).
    rewrite G2, G3, G4, G5, H2, H3, H4, H5. repeat split. exact G1.
Qed.

Lemma model_rules_are_noops_without_model_witness :
  onResize false (mkVector3 0 1 0) initialScene = initialScene /\
  model (run [Scroll 0.3; Resize true (mkVector3 0 0 0); Scroll 0.1]
             initialScene) = None /\
  currentRotation (run [Scroll 0.3; Resize true (mkVector3 0 0 0); Scroll 0.1]
                       initialScene) = 0.
Proof.
  pose proof (model_rules_are_noops_without_model initialScene 0.3 false
                (mkVector3 0 1 0)
                [Scroll 0.3; Resize true (mkVector3 0 0 0); Scroll 0.1]
                eq_refl) as (_ & _ & H1 & _ & H2 & H3 & _).
  split; [exact H1|]. split; [exact H2|exact H3].
Defined.

(** ** Entrance position *)

Lemma entrance_progress_order (p : Q) :
  0 <= resize_entranceProgress p <= entranceProgress p /\
  entranceProgress p <= 1 /\
  (p <= 0 \/ 0.12 <= p -> resize_entranceProgress p == entranceProgress p) /\
  (0 < p < 0.12 -> resize_entranceProgress p < entranceProgress p).
Proof.
  unfold resize_entranceProgress, entranceProgress.
  split; [|split; [|split]].
  - window_arith.
  - window_arith.
  - intros H. window_arith.
  - intros H. window_arith.
Qed.

(** With the model loaded and a non-negative height, the entrance
    target of a scroll update always lies between the start position
    (1.5 heights below the final position) and the final position, and
    it never moves down as the progress grows. *)
Theorem entrance_target_between_start_and_final
  (s : Scene) (m : Object3D) (size : Vector3) (p q : Q) :
  model s = Some m ->
  modelSize s = Some size ->
  0 <= vy size ->
  p <= q ->
  exists y y',
    model_position_y (snd (onUpdate p s)) = Some y /\
    model_position_y (snd (onUpdate q s)) = Some y' /\
    vy (finalModelPosition s) - vy size * 1.5 <= y /\
    y <= y' /\
    y' <= vy (finalModelPosition s).
Proof.
  intros Hm Hs Hh Hpq.
  unfold onUpdate. cbn [snd model_position_y]. rewrite Hm, Hs.
  do 2 eexists. split; [reflexivity|]. split; [reflexivity|].
  unfold currentY.
  pose proof (entrance_progress_order p) as (Hp0 & Hp1 & _).
  pose proof (entrance_progress_order q) as (Hq0 & Hq1 & _).
  assert (Hmono : entranceProgress p <= entranceProgress q).
  { rewrite (entranceProgress_window p), (entranceProgress_window q).
    apply windowProgress_mono; [cbn; lra|exact Hpq]. }
  set (a := entranceProgress p) in *. set (b := entranceProgress q) in *.
  set (h := vy size) in *.
  assert (H1 : 0 <= a * h) by (apply Qmult_le_0_compat; lra).
  assert (H2 : 0 <= (b - a) * h) by (apply Qmult_le_0_compat; lra).
  assert (H3 : 0 <= (1 - b) * h) by (apply Qmult_le_0_compat; lra).
  repeat split; lra.
Qed.

Lemma entrance_target_between_start_and_final_witness :
  exists y y',
    model_position_y (snd (onUpdate 0.01 sceneAfterLoad)) = Some y /\
    model_position_y (snd (onUpdate 0.03 sceneAfterLoad)) = Some y' /\
    vy (finalModelPosition sceneAfterLoad) - 2 * 1.5 <= y /\
    y <= y' /\
    y' <= vy (finalModelPosition sceneAfterLoad).
Proof.
  refine (entrance_target_between_start_and_final sceneAfterLoad _
            (mkVector3 1 2 1) 0.01 0.03 _ _ _ _).
  - reflexivity.
  - reflexivity.
  - cbn. lra.
  - lra.
Defined.

(** With the model loaded and a non-negative height, a resize at
    progress [p] never puts the model above the position the scroll
    update targets at the same [p]; the two coincide when [p <= 0] or
    [p >= 0.12], and for [0 < p < 0.12] and a positive height the resize
    position is strictly lower. *)
Theorem resize_entrance_lags_scroll_entrance
  (s : Scene) (m : Object3D) (size : Vector3) (p : Q) :
  model s = Some m ->
  modelSize s = Some size ->
  0 <= vy size ->
  exists y_scroll y_resize,
    model_position_y (snd (onUpdate p s)) = Some y_scroll /\
    model_y (applyEntranceAnimationState (fst (onUpdate p s)))
    = Some y_resize /\
    y_resize <= y_scroll /\
    (p <= 0 \/ 0.12 <= p -> y_resize == y_scroll) /\
    (0 < p < 0.12 -> 0 < vy size -> y_resize < y_scroll).
Proof.
  intros Hm Hs Hh.
  pose proof (onUpdate_model p s m Hm) as Hm'.
  unfold applyEntranceAnimationState, model_y. rewrite Hm'.
  unfold onUpdate at 1 2 3 4.
  cbn [fst snd model_position_y modelSize finalModelPosition
       currentScrollProgress model position vy].
  rewrite Hm, Hs.
  do 2 eexists. split; [reflexivity|]. split; [reflexivity|].
  unfold currentY.
  pose proof (entrance_progress_order p) as ((Hr0 & Hrs) & Hs1 & Heq & Hlt).
  set (a := entranceProgress p) in *.
  set (b := resize_entranceProgress p) in *.
  set (h := vy size) in *.
  cbn [vy position].
  split; [|split].
  - assert (H : 0 <= (a - b) * h) by (apply Qmult_le_0_compat; lra). lra.
  - intro H. rewrite (Heq H). lra.
  - intros H Hpos. specialize (Hlt H).
    assert (H' : 0 < (a - b) * h) by (apply Qmult_lt_0_compat; lra). lra.
Qed.

Lemma resize_entrance_lags_scroll_entrance_witness :
  exists y_scroll y_resize,
    model_position_y (snd (onUpdate 0.03 sceneAfterLoad)) = Some y_scroll /\
    model_y (applyEntranceAnimationState (fst (onUpdate 0.03 sceneAfterLoad)))
    = Some y_resize /\
    y_resize < y_scroll.
Proof.
  assert (Hh : 0 <= vy (mkVector3 1 2 1)) by (cbn; lra).
  destruct (resize_entrance_lags_scroll_entrance sceneAfterLoad _
              (mkVector3 1 2 1) 0.03 eq_refl eq_refl Hh)
    as (y1 & y2 & H1 & H2 & _ & _ & H3).
  exists y1, y2. split; [exact H1|]. split; [exact H2|].
  apply H3; cbn; lra.
Defined.

(** ** Placement on load *)

(** The load callback keeps the progress and the rotation tracker,
    records the measured size, and stores a final position that puts the
    centre of the measured bounding box 5% of the height below the
    origin and at depth 0; on a desktop viewport the centre ends 40% of
    the width to the left, on a mobile viewport the final x is the
    centre's own x.  The model itself is placed at that x and z, 1.5
    heights lower, unturned, and tilted by -pi/12 on desktop only. *)
Theorem load_places_the_model
  (isMobile : bool) (size center : Vector3) (s : Scene) :
  let s' := onModelLoaded isMobile size center s in
  let f := finalModelPosition s' in
  modelSize s' = Some size /\
  currentRotation s' = currentRotation s /\
  currentScrollProgress s' = currentScrollProgress s /\
  vy f + vy center == -0.05 * vy size /\
  vz f + vz center == 0 /\
  (if isMobile then vx f == vx center
   else vx f + vx center == -0.4 * vx size) /\
  exists m,
    model s' = Some m /\
    vx (position m) = vx f /\
    vz (position m) = vz f /\
    vy (position m) == vy f - 1.5 * vy size /\
    turned m = 0 /\
    rotation_z m == (if isMobile then 0 else - JS.Math_PI / 12).
Proof.
  cbv zeta. unfold onModelLoaded, setupModel.
  cbn [model modelSize finalModelPosition currentRotation
       currentScrollProgress vx vy vz].
  unfold modelConfig.verticalOffset, modelConfig.horizontalOffset.
  repeat split; try lra.
  - destruct isMobile; lra.
  - eexists. split; [reflexivity|]. cbn [position vx vy vz turned rotation_z].
    repeat split; try lra.
    unfold degToRad, modelConfig.rotation_mobile, modelConfig.rotation_desktop.
    destruct isMobile; qdiv; lra.
Qed.

(** [setupModel] puts the camera at the device's distance factor (4 on
    mobile, 3 on desktop) times the largest of the three extents, so
    the camera is at least that factor times every extent away, and
    the mobile distance is 4/3 of the desktop distance. *)
Theorem camera_distance_scales_largest_extent
  (isMobile : bool) (center : Vector3) (s : Scene) (m : Object3D)
  (size : Vector3) :
  model s = Some m ->
  modelSize s = Some size ->
  let z := camera_z (setupModel isMobile center s) in
  let d := if isMobile then 4 else 3 in
  d * vx size <= z /\ d * vy size <= z /\ d * vz size <= z /\
  (z == d * vx size \/ z == d * vy size \/ z == d * vz size) /\
  3 * camera_z (setupModel true center s)
  == 4 * camera_z (setupModel false center s).
Proof.
  intros Hm Hs. cbv zeta. unfold setupModel. rewrite Hm, Hs.
  cbn [camera_z].
  unfold modelConfig.cameraDistance_mobile, modelConfig.cameraDistance_desktop.
  destruct isMobile; minmax; lra.
Qed.

Lemma camera_distance_scales_largest_extent_witness :
  3 * vx (mkVector3 1 2 1) <= camera_z (setupModel false (mkVector3 0 1 0) sceneAfterLoad) /\
  3 * vy (mkVector3 1 2 1) <= camera_z (setupModel false (mkVector3 0 1 0) sceneAfterLoad).
Proof.
  destruct (camera_distance_scales_largest_extent false (mkVector3 0 1 0)
              sceneAfterLoad _ (mkVector3 1 2 1) eq_refl eq_refl)
    as (H1 & H2 & _).
  split; [exact H1|exact H2].
Defined.

(** ** Sessions *)

Lemma onResize_keeps_rotation (isMobile : bool) (center : Vector3) (s : Scene) :
  currentRotation (onResize isMobile center s) = currentRotation s /\
  currentScrollProgress (onResize isMobile center s) = currentScrollProgress s /\
  model_turned (onResize isMobile center s) = model_turned s /\
  (model s <> None -> model (onResize isMobile center s) <> None).
Proof.
  destruct s as [[m|] cr [size|] fp cp cz];
    cbn; repeat split; try (intros _; discriminate); intro H; exact H.
Qed.

Lemma run_without_model (es : list Event) (s : Scene) :
  model s = None ->
  model (run es s) = None /\ currentRotation (run es s) = currentRotation s.
Proof.
  revert s. induction es as [|e es IH]; intros s Hm; cbn [run].
  - now split.
  - destruct (handle_without_model e s Hm) as (H1 & H2 & _).
    destruct (IH _ H1) as (G1 & G2). split; [exact G1|congruence].
Qed.

Lemma handle_keeps_tracked (e : Event) (s : Scene) :
  rotation_tracked s -> rotation_tracked (handle e s).
Proof.
  intros [Hm Hinv]. destruct e as [p|b c]; cbn [handle].
  - unfold model_turned in Hinv.
    destruct (model s) as [m|] eqn:Hms; [|congruence].
    destruct (onUpdate_rotation p s m Hms Hinv) as (m' & Hm' & Hinv' & _).
    split; [congruence|]. unfold model_turned. now rewrite Hm'.
  - destruct (onResize_keeps_rotation b c s) as (H1 & _ & H3 & H4).
    split; [now apply H4|]. now rewrite H1, H3.
Qed.

Lemma scroll_brings_rotation_close (p : Q) (s : Scene) :
  rotation_tracked s ->
  Qabs (model_turned (handle (Scroll p) s)
        - targetRotation (currentScrollProgress (handle (Scroll p) s)))
  <= 0.001.
Proof.
  intros [Hm Hinv]. cbn [handle]. unfold model_turned in *.
  destruct (model s) as [m|] eqn:Hms; [|congruence].
  destruct (onUpdate_rotation p s m Hms Hinv) as (m' & Hm' & _ & Hclose).
  rewrite Hm'. exact Hclose.
Qed.

Lemma run_brings_rotation_close (es : list Event) (s : Scene) :
  rotation_tracked s ->
  Qabs (model_turned s - targetRotation (currentScrollProgress s)) <= 0.001
  \/ (exists p, In (Scroll p) es) ->
  rotation_tracked (run es s) /\
  Qabs (model_turned (run es s)
        - targetRotation (currentScrollProgress (run es s))) <= 0.001.
Proof.
  revert s. induction es as [|e es IH]; intros s Ht Hc; cbn [run].
  - split; [exact Ht|]. destruct Hc as [Hc|[p []]]. exact Hc.
  - apply IH; [now apply handle_keeps_tracked|].
    destruct e as [p|b c].
    + left. now apply scroll_brings_rotation_close.
    + destruct Hc as [Hc|[p [Hin|Hin]]].
      * left. cbn [handle].
        destruct (onResize_keeps_rotation b c s) as (_ & H2 & H3 & _).
        now rewrite H2, H3.
      * discriminate.
      * right. now exists p.
Qed.

Lemma run_resizes_only (es : list Event) (s : Scene) :
  (forall p, ~ In (Scroll p) es) ->
  model_turned (run es s) = model_turned s /\
  currentScrollProgress (run es s) = currentScrollProgress s.
Proof.
  revert s. induction es as [|e es IH]; intros s Hno; cbn [run].
  - now split.
  - destruct e as [p|b c].
    + exfalso. apply (Hno p). now left.
    + destruct (IH (handle (Resize b c) s)) as (G1 & G2).
      { intros p Hin. apply (Hno p). now right. }
      cbn [handle] in *.
      destruct (onResize_keeps_rotation b c s) as (_ & H2 & H3 & _).
      split; congruence.
Qed.

Lemma run_keeps_tracked (es : list Event) (s : Scene) :
  rotation_tracked s -> rotation_tracked (run es s).
Proof.
  revert s. induction es as [|e es IH]; intros s Ht; cbn [run].
  - exact Ht.
  - apply IH. now apply handle_keeps_tracked.
Qed.

(** Whatever scrolls and resizes come before and after the one load of
    the model, the angle applied to the model equals the tracker.  Once
    a scroll update has arrived after the load, the applied angle is
    within 0.001 of 8 * pi times the progress last reported, resizes
    notwithstanding; until then the model is unturned and the progress
    recorded is the one reached before the load. *)
Theorem session_rotation_follows_progress
  (before after : list Event) (isMobile : bool) (size center : Vector3) :
  let s := session before isMobile size center after in
  model s <> None /\
  model_turned s == currentRotation s /\
  ((exists p, In (Scroll p) after) ->
   Qabs (model_turned s - targetRotation (currentScrollProgress s)) <= 0.001) /\
  ((forall p, ~ In (Scroll p) after) ->
   model_turned s = 0 /\
   currentScrollProgress s = currentScrollProgress (run before initialScene)).
Proof.
  cbv zeta. unfold session.
  destruct (run_without_model before initialScene eq_refl) as (_ & Hcr).
  set (s0 := run before initialScene) in *.
  assert (Ht : rotation_tracked (onModelLoaded isMobile size center s0)).
  { split; [discriminate|]. cbn. rewrite Hcr. reflexivity. }
  pose proof (run_keeps_tracked after _ Ht) as [Hmodel Hinv].
  split; [exact Hmodel|]. split; [exact Hinv|]. split.
  - intro Hscroll. apply (run_brings_rotation_close after _ Ht). now right.
  - intro Hno. destruct (run_resizes_only after
                           (onModelLoaded isMobile size center s0) Hno)
      as (H1 & H2).
    split; [rewrite H1; reflexivity|rewrite H2; reflexivity].
Qed.

Lemma session_rotation_follows_progress_witness :
  Qabs (model_turned
          (session [Scroll 0.5] false (mkVector3 1 2 1) (mkVector3 0 1 0)
                   [Scroll 0.6; Resize true (mkVector3 0 1 0)])
        - targetRotation
            (currentScrollProgress
               (session [Scroll 0.5] false (mkVector3 1 2 1) (mkVector3 0 1 0)
                        [Scroll 0.6; Resize true (mkVector3 0 1 0)])))
  <= 0.001 /\
  model_turned
    (session [Scroll 0.5] false (mkVector3 1 2 1) (mkVector3 0 1 0)
             [Resize true (mkVector3 0 1 0)]) = 0.
Proof.
  split.
  - apply (session_rotation_follows_progress [Scroll 0.5]
             [Scroll 0.6; Resize true (mkVector3 0 1 0)] false
             (mkVector3 1 2 1) (mkVector3 0 1 0)).
    exists 0.6. now left.
  - apply (session_rotation_follows_progress [Scroll 0.5]
             [Resize true (mkVector3 0 1 0)] false
             (mkVector3 1 2 1) (mkVector3 0 1 0)).
    intros p [H|[]]. discriminate.
Defined.

(** ** Triggers of different lengths *)

(** Two triggers on the same section see the same scroll distance
    through their own lengths. *)
Lemma triggerProgress_scaled (scrolled h k : Q) :
  0 < h -> 0 < k ->
  triggerProgress scrolled (h * k) == clamp (scrolled / h / k) 0 1.
Proof.
  intros Hh Hk. unfold triggerProgress, clamp.
  assert (E : scrolled / (h * k) == scrolled / h / k).
  { field. split; lra. }
  rewrite E. reflexivity.
Qed.

(** The pinned fixed text is shown exactly while the main progress is
    between 0.18 and 0.2925, so it is up during the whole mask reveal
    (0.2 to 0.28); outside that range the handler returns the text to
    the state it was given at start-up, and a refresh sets what an
    update animates to. *)
Theorem pinned_text_spans_mask_reveal (innerHeight scrolled : Q) :
  0 < innerHeight ->
  let p := triggerProgress scrolled (mainTrigger_length innerHeight) in
  let q := triggerProgress scrolled (pinnedTextTrigger_length innerHeight) in
  (shouldShowText q = true <-> 0.18 <= p <= 0.2925) /\
  (0 < maskSize p < 100 -> pinnedText_onUpdate q = mkPinnedText 1 0) /\
  (shouldShowText q = false -> pinnedText_onUpdate q = pinnedText_initial) /\
  pinnedText_onRefresh q = pinnedText_onUpdate q.
Proof.
  intros Hh. cbv zeta.
  unfold mainTrigger_length, pinnedTextTrigger_length.
  pose proof (triggerProgress_scaled scrolled innerHeight 4 Hh eq_refl) as Ep.
  pose proof (triggerProgress_scaled scrolled innerHeight 1.8 Hh eq_refl) as Eq.
  set (p := triggerProgress scrolled (innerHeight * 4)) in *.
  set (q := triggerProgress scrolled (innerHeight * 1.8)) in *.
  set (u := scrolled / innerHeight) in *. clearbody p q u.
  unfold clamp in Ep, Eq.
  assert (Hshow : shouldShowText q = true <-> 0.18 <= p <= 0.2925).
  { unfold shouldShowText. revert Ep Eq. qdiv. minmax. intros Ep Eq.
    js_cases; split; intro Hgoal; try discriminate; try reflexivity; lra. }
  split; [exact Hshow|]. split; [|split].
  - intro Hmask. unfold pinnedText_onUpdate.
    assert (Hs : shouldShowText q = true).
    { apply Hshow. revert Hmask. unfold maskSize. js_cases; qdiv; lra. }
    now rewrite Hs.
  - intro Hs. unfold pinnedText_onUpdate. now rewrite Hs.
  - reflexivity.
Qed.

Lemma pinned_text_spans_mask_reveal_witness :
  pinnedText_onUpdate
    (triggerProgress 960 (pinnedTextTrigger_length 1000)) = mkPinnedText 1 0.
Proof.
  assert (Hh : 0 < 1000) by reflexivity.
  apply (proj1 (proj2 (pinned_text_spans_mask_reveal 1000 960 Hh))).
  vm_compute. split; reflexivity.
Defined.

(** The logo trigger is five viewport heights long where the main
    trigger is four: the window 0.2 to 0.28 of the logo handler is the
    range 0.25 to 0.35 of the main progress, and the logo is still
    white at every main progress up to 0.25. *)
Theorem logo_window_in_main_progress (innerHeight scrolled : Q) :
  0 < innerHeight ->
  let p := triggerProgress scrolled (mainTrigger_length innerHeight) in
  let r := triggerProgress scrolled (logoTrigger_length innerHeight) in
  (0.2 <= r <= 0.28 <-> 0.25 <= p <= 0.35) /\
  (p <= 0.25 -> channels (logo_onUpdate r) = (255, 255, 255)%Z).
Proof.
  intros Hh. cbv zeta.
  unfold mainTrigger_length, logoTrigger_length.
  pose proof (triggerProgress_scaled scrolled innerHeight 4 Hh eq_refl) as Ep.
  pose proof (triggerProgress_scaled scrolled innerHeight 5 Hh eq_refl) as Er.
  set (p := triggerProgress scrolled (innerHeight * 4)) in *.
  set (r := triggerProgress scrolled (innerHeight * 5)) in *.
  set (u := scrolled / innerHeight) in *. clearbody p r u.
  unfold clamp in Ep, Er.
  assert (Hrel : (0.2 <= r <= 0.28 <-> 0.25 <= p <= 0.35) /\
                 (p <= 0.25 -> r <= 0.2)).
  { revert Ep Er. qdiv. minmax. intros Ep Er.
    split; [split; intro Hgoal; lra|]. intro Hgoal. lra. }
  destruct Hrel as (Hw & Hle).
  split; [exact Hw|].
  intro Hp. specialize (Hle Hp). unfold logo_onUpdate.
  destruct (lt_spec r 0.2) as [Hlt|Hge]; unfold JS.ge, JS.le, JS.gt.
  - destruct (r <? 0.2) eqn:E1.
    + cbn [negb andb]. destruct (lt_spec 0.28 r); [lra|reflexivity].
    + destruct (lt_spec r 0.2); [discriminate|lra].
  - destruct (r <? 0.2) eqn:E1.
    + destruct (lt_spec r 0.2); [lra|discriminate].
    + destruct (lt_spec 0.28 r); [lra|]. cbn [negb andb channels].
      assert (Hv : (255 <= logo_colorValue r <= 255)%Z).
      { unfold logo_colorValue, transitionProgress.
        apply Math_round_bounds; change (inject_Z 255) with 255; qdiv; lra. }
      assert (Hv' : logo_colorValue r = 255%Z) by lia.
      rewrite Hv'. reflexivity.
Qed.

Lemma logo_window_in_main_progress_witness :
  channels (logo_onUpdate (triggerProgress 900 (logoTrigger_length 1000)))
  = (255, 255, 255)%Z.
Proof.
  assert (Hh : 0 < 1000) by reflexivity.
  apply (proj2 (logo_window_in_main_progress 1000 900 Hh)).
  vm_compute. discriminate.
Defined.

(** ** Tooltip triggers *)

(** The refresh and update callbacks of a tooltip trigger use different
    ranges.  A refresh shows the tooltip (head 1) exactly for progress
    in [0.35, 0.45] and hides it (head 0) otherwise; an update plays it
    exactly for progress in [0.45, 0.85].  So the two agree on showing
    only at 0.45: below it an update reverses what the refresh showed,
    and above it, up to 0.85, the refresh hides what the update then
    plays from the start. *)
Theorem tooltip_refresh_and_update_ranges_differ (p : Q) (t : Timeline) :
  (head (tooltip_onRefresh p t) == 1 <-> 0.35 <= p <= 0.45) /\
  (head (tooltip_onRefresh p t) == 0 <-> ~ (0.35 <= p <= 0.45)) /\
  (reversed (tooltip_onUpdate p t) = false <-> 0.45 <= p <= 0.85) /\
  (isInTooltipRange p = true /\ tooltip_refreshInRange p = true <-> p == 0.45) /\
  (0.35 <= p < 0.45 ->
     tooltip_onUpdate p (tooltip_onRefresh p t)
     = timeline.reverse (timeline.progress 1 t)) /\
  (0.45 < p <= 0.85 ->
     tooltip_onUpdate p (tooltip_onRefresh p t)
     = timeline.play (timeline.progress 0 t)).
Proof.
  assert (Hone : head (timeline.progress 1 t) == 1) by (vm_compute; reflexivity).
  assert (Hzero : head (timeline.progress 0 t) == 0) by (vm_compute; reflexivity).
  unfold tooltip_onRefresh, tooltip_onUpdate, isInTooltipRange,
    tooltip_refreshInRange.
  split; [|split; [|split; [|split; [|split]]]].
  - js_cases; split; intro Hgoal; try lra;
      try exact Hone; rewrite Hzero in Hgoal; lra.
  - js_cases; split; intro Hgoal; try lra;
      try exact Hzero; rewrite Hone in Hgoal; lra.
  - js_cases; cbn [timeline.play timeline.reverse reversed];
      split; intro Hgoal; try discriminate; try reflexivity; lra.
  - js_cases; split; intro Hgoal; try lra;
      try (destruct Hgoal; discriminate); split; reflexivity.
  - intro Hgoal. js_cases; try lra; reflexivity.
  - intro Hgoal. js_cases; try lra; reflexivity.
Qed.

Lemma tooltip_refresh_and_update_ranges_differ_witness :
  tooltip_onUpdate 0.4 (tooltip_onRefresh 0.4 timeline.create)
  = timeline.reverse (timeline.progress 1 timeline.create) /\
  tooltip_onUpdate 0.6 (tooltip_onRefresh 0.6 timeline.create)
  = timeline.play (timeline.progress 0 timeline.create).
Proof.
  split.
  - apply (tooltip_refresh_and_update_ranges_differ 0.4 timeline.create). lra.
  - apply (tooltip_refresh_and_update_ranges_differ 0.6 timeline.create). lra.
Defined.

Lemma initialStateCheck_cases
  (scrollTop rectTop innerHeight : Q) (timelines : list Timeline) :
  0 < innerHeight ->
  (0 < rectTop \/ 1.8 * innerHeight < - rectTop ->
     initialStateCheck scrollTop rectTop innerHeight timelines = timelines) /\
  (1.26 * innerHeight <= - rectTop <= 1.602 * innerHeight ->
     initialStateCheck scrollTop rectTop innerHeight timelines
     = map (timeline.progress 1) timelines) /\
  (0 <= - rectTop < 1.26 * innerHeight \/
   1.602 * innerHeight < - rectTop <= 1.8 * innerHeight ->
     initialStateCheck scrollTop rectTop innerHeight timelines
     = map (timeline.progress 0) timelines).
Proof.
  intro Hh. unfold initialStateCheck.
  set (x := (scrollTop - (scrollTop + rectTop)) / (innerHeight * 1.8)).
  assert (Hx : x * (innerHeight * 1.8) == - rectTop).
  { unfold x. field. lra. }
  assert (Hd : 0 < innerHeight * 1.8) by lra.
  assert (Hlo : 0.7 <= x <-> 1.26 * innerHeight <= - rectTop).
  { rewrite <- Hx, <- (Qmult_le_r 0.7 x _ Hd). split; intro Hgoal; lra. }
  assert (Hhi : x <= 0.89 <-> - rectTop <= 1.602 * innerHeight).
  { rewrite <- Hx, <- (Qmult_le_r x 0.89 _ Hd). split; intro Hgoal; lra. }
  clearbody x.
  split; [|split]; intro Hcase.
  - js_cases; try reflexivity; lra.
  - destruct Hcase as [H1 H2]. apply Hlo in H1. apply Hhi in H2.
    js_cases; try reflexivity; lra.
  - assert (Hout : x < 0.7 \/ 0.89 < x).
    { destruct Hcase as [[_ H1]|[H1 _]].
      - left. destruct (Qlt_le_dec x 0.7) as [Hl|Hl]; [exact Hl|].
        apply Hlo in Hl. lra.
      - right. destruct (Qlt_le_dec 0.89 x) as [Hl|Hl]; [exact Hl|].
        apply Hhi in Hl. lra. }
    js_cases; try reflexivity; lra.
Qed.

(** The check that runs after the tooltip triggers are created does
    not depend on the scroll offset it reads, only on the top of the
    section's rectangle and the viewport height [h]: it leaves the
    timelines alone when the rectangle's top is below the viewport top
    or more than 1.8 h above it, sets every head to 1 when the top is
    between 1.26 h and 1.602 h above, and sets every head to 0
    otherwise; it never changes the number of timelines. *)
Theorem initial_check_ignores_scroll_offset
  (scrollTop scrollTop' rectTop innerHeight : Q) (timelines : list Timeline) :
  0 < innerHeight ->
  initialStateCheck scrollTop rectTop innerHeight timelines
  = initialStateCheck scrollTop' rectTop innerHeight timelines /\
  List.length (initialStateCheck scrollTop rectTop innerHeight timelines)
  = List.length timelines /\
  (0 < rectTop \/ 1.8 * innerHeight < - rectTop ->
     initialStateCheck scrollTop rectTop innerHeight timelines = timelines) /\
  (1.26 * innerHeight <= - rectTop <= 1.602 * innerHeight ->
     initialStateCheck scrollTop rectTop innerHeight timelines
     = map (timeline.progress 1) timelines) /\
  (0 <= - rectTop < 1.26 * innerHeight \/
   1.602 * innerHeight < - rectTop <= 1.8 * innerHeight ->
     initialStateCheck scrollTop rectTop innerHeight timelines
     = map (timeline.progress 0) timelines).
Proof.
  intro Hh.
  destruct (initialStateCheck_cases scrollTop rectTop innerHeight timelines Hh)
    as (A1 & A2 & A3).
  destruct (initialStateCheck_cases scrollTop' rectTop innerHeight timelines Hh)
    as (B1 & B2 & B3).
  assert (Hcases :
    (0 < rectTop \/ 1.8 * innerHeight < - rectTop) \/
    (1.26 * innerHeight <= - rectTop <= 1.602 * innerHeight) \/
    (0 <= - rectTop < 1.26 * innerHeight \/
     1.602 * innerHeight < - rectTop <= 1.8 * innerHeight)).
  { destruct (Qlt_le_dec 0 rectTop); [left; left; assumption|].
    destruct (Qlt_le_dec (1.8 * innerHeight) (- rectTop));
      [left; right; assumption|].
    destruct (Qlt_le_dec (- rectTop) (1.26 * innerHeight));
      [right; right; left; lra|].
    destruct (Qlt_le_dec (1.602 * innerHeight) (- rectTop));
      [right; right; right; lra|].
    right; left; lra. }
  split; [|split; [|split; [exact A1|split; [exact A2|exact A3]]]].
  - destruct Hcases as [H|[H|H]].
    + now rewrite (A1 H), (B1 H).
    + now rewrite (A2 H), (B2 H).
    + now rewrite (A3 H), (B3 H).
  - destruct Hcases as [H|[H|H]].
    + now rewrite (A1 H).
    + rewrite (A2 H). apply List.length_map.
    + rewrite (A3 H). apply List.length_map.
Qed.

Lemma initial_check_ignores_scroll_offset_witness :
  initialStateCheck 5000 (-1400) 1000 [timeline.create; timeline.create]
  = initialStateCheck 0 (-1400) 1000 [timeline.create; timeline.create] /\
  initialStateCheck 5000 (-1400) 1000 [timeline.create; timeline.create]
  = map (timeline.progress 1) [timeline.create; timeline.create].
Proof.
  assert (Hh : 0 < 1000) by reflexivity.
  destruct (initial_check_ignores_scroll_offset 5000 0 (-1400) 1000
              [timeline.create; timeline.create] Hh) as (H1 & _ & _ & H2 & _).
  split; [exact H1|]. apply H2. split; vm_compute; discriminate.
Defined.

(** ** The logo ramp *)

Lemma logo_onUpdate_inside (p : Q) :
  0.2 <= p <= 0.28 ->
  logo_onUpdate p
  = rgb (logo_colorValue p) (logo_colorValue p) (logo_colorValue p).
Proof.
  intros [Hlo Hhi]. unfold logo_onUpdate.
  js_cases; try lra; reflexivity.
Qed.

(** The logo handler writes white below 0.2 and black above 0.28.
    Inside its window it writes a grey whose channels are within
    [0, 255] only over the first hundredth, 0.2 to 0.21, where it goes
    from white to black; from 0.2101 to the window end 0.28 every
    channel is negative, down to -1785. *)
Theorem logo_ramp_is_valid_on_first_hundredth_only (p : Q) :
  (p < 0.2 -> logo_onUpdate p = hex "#ffffff") /\
  (0.28 < p -> logo_onUpdate p = hex "#000000") /\
  (0.2 <= p <= 0.21 ->
     exists v, logo_onUpdate p = rgb v v v /\ (0 <= v <= 255)%Z) /\
  (0.2101 <= p <= 0.28 ->
     exists v, logo_onUpdate p = rgb v v v /\ (-1785 <= v < 0)%Z) /\
  logo_colorValue 0.2 = 255%Z /\ logo_colorValue 0.21 = 0%Z.
Proof.
  split; [|split; [|split; [|split; [|split]]]].
  - intro Hp. unfold logo_onUpdate. js_cases; try lra; reflexivity.
  - intro Hp. unfold logo_onUpdate. js_cases; try lra; reflexivity.
  - intros [Hlo Hhi]. exists (logo_colorValue p). split.
    + apply logo_onUpdate_inside. lra.
    + unfold logo_colorValue, transitionProgress.
      apply Math_round_bounds; change (inject_Z 0) with 0;
        change (inject_Z 255) with 255; qdiv; lra.
  - intros [Hlo Hhi]. exists (logo_colorValue p). split.
    + apply logo_onUpdate_inside. lra.
    + assert (Hb : (-1785 <= logo_colorValue p <= -1)%Z).
      { unfold logo_colorValue, transitionProgress.
        apply Math_round_bounds; change (inject_Z (-1785)) with (-1785);
          change (inject_Z (-1)) with (-1); qdiv; lra. }
      lia.
  - vm_compute. reflexivity.
  - vm_compute. reflexivity.
Qed.

Lemma logo_ramp_is_valid_on_first_hundredth_only_witness :
  (exists v, logo_onUpdate 0.205 = rgb v v v /\ (0 <= v <= 255)%Z) /\
  (exists v, logo_onUpdate 0.25 = rgb v v v /\ (-1785 <= v < 0)%Z).
Proof.
  split.
  - apply (logo_ramp_is_valid_on_first_hundredth_only 0.205). lra.
  - apply (logo_ramp_is_valid_on_first_hundredth_only 0.25). lra.
Defined.

(** ** The earlier revision *)




(** In the earlier revision too the guards of the scale and header-1
    rules sit outside their windows: the container scale is 0.8 below
    0.35 and 1 from there on, never in between, and the header-1 offset
    is -100 times the sub-progress of the window 0.3 to 0.65 at every
    progress. *)
Theorem legacy_guards_sit_outside_their_windows (p : Q) :
  (p < 0.35 -> LegacyUpdate.modelScale p == 0.8) /\
  (0.35 <= p -> LegacyUpdate.modelScale p == 1) /\
  LegacyUpdate.header1XPercent p
  == -100 * windowProgress p (mkWindow 0.3 0.65).
Proof.
  split; [|split].
  - intro Hp. unfold LegacyUpdate.modelScale. js_cases; lra.
  - intro Hp. unfold LegacyUpdate.modelScale, LegacyUpdate.modelProgress.
    js_cases; window_arith.
  - unfold LegacyUpdate.header1XPercent, LegacyUpdate.headerProgress,
      windowProgress, clamp.
    js_cases; window_arith.
Qed.

Lemma legacy_guards_sit_outside_their_windows_witness :
  LegacyUpdate.modelScale 0.2 == 0.8 /\ LegacyUpdate.modelScale 0.5 == 1.
Proof.
  split.
  - apply (legacy_guards_sit_outside_their_windows 0.2). lra.
  - apply (proj1 (proj2 (legacy_guards_sit_outside_their_windows 0.5))). lra.
Defined.

(** ** Tooltip selectors *)

(** The icon tween and the text tween of a tooltip timeline never get
    the same selector: whatever list of selectors is configured, every
    entry goes to the icon tween when it mentions ".icon", to the text
    tween when it mentions neither ".icon" nor ".divider", and to
    neither otherwise.  For both configured tooltips that is the icon
    selector for the icon tween and the title and description line
    spans for the text tween. *)
Theorem tooltip_selectors_are_partitioned (elements : list string) (el : string) :
  (In el (iconElements elements) <->
   In el elements /\ includes ".icon" el = true) /\
  (In el (textElements elements) <->
   In el elements /\ includes ".icon" el = false
   /\ includes ".divider" el = false) /\
  ~ (In el (iconElements elements) /\ In el (textElements elements)) /\
  (List.length (iconElements elements) + List.length (textElements elements)
   <= List.length elements)%nat /\
  map iconElements tooltipSelectors
  = [ [".tooltip:nth-child(2) .icon"]; [".tooltip:nth-child(3) .icon"] ]%string /\
  map textElements tooltipSelectors
  = [ [ ".tooltip:nth-child(2) .title .line > span";
        ".tooltip:nth-child(2) .description .line > span" ];
      [ ".tooltip:nth-child(3) .title .line > span";
        ".tooltip:nth-child(3) .description .line > span" ] ]%string.
Proof.
  assert (Hicon : In el (iconElements elements) <->
                  In el elements /\ includes ".icon" el = true).
  { unfold iconElements. apply filter_In. }
  assert (Htext : In el (textElements elements) <->
                  In el elements /\ includes ".icon" el = false
                  /\ includes ".divider" el = false).
  { unfold textElements. rewrite filter_In, andb_true_iff, !negb_true_iff.
    reflexivity. }
  split; [exact Hicon|]. split; [exact Htext|].
  split; [|split; [|split]].
  - intros [Hi Ht]. apply Hicon in Hi. apply Htext in Ht.
    destruct Hi as [_ Hi]. destruct Ht as [_ [Ht _]]. congruence.
  - clear Hicon Htext. unfold iconElements, textElements.
    induction elements as [|e es IH]; cbn [filter List.length]; [lia|].
    destruct (includes ".icon" e); cbn [negb andb List.length].
    + lia.
    + destruct (negb (includes ".divider" e)); cbn [List.length]; lia.
  - vm_compute. reflexivity.
  - vm_compute. reflexivity.
Qed.

Lemma tooltip_selectors_are_partitioned_witness :
  In ".tooltip:nth-child(2) .icon"%string
     (iconElements [ ".tooltip:nth-child(2) .divider";
                     ".tooltip:nth-child(2) .icon" ]%string).
Proof.
  apply (proj1 (tooltip_selectors_are_partitioned
                  [ ".tooltip:nth-child(2) .divider";
                    ".tooltip:nth-child(2) .icon" ]%string
                  ".tooltip:nth-child(2) .icon"%string)).
  split; [right; left; reflexivity|reflexivity].
Defined.
